(** * Price surface page of the dashboard: data preparation and surface build

    Shallow embedding of [dashboard/pages/surface.py]: the two memoised
    functions [get_surface_data] and [build_surface_figure], the pandas
    calls they are made of, the page's [layout], and the properties of the
    resulting figure.

    Conventions of the model.
    - Prices are exact rationals ([Q]): sums and means are the exact
      ones, not their floating-point roundings. The missing float (NaN)
      and the missing timestamp (NaT) are both the cell [VNaN].
    - A DataFrame is its column index (labels, in order) and its records,
      each record a dictionary from label to cell.
    - Python objects that are mutated in place (DataFrames) live in a heap
      and are passed around by reference.
    - A Python call either returns a value or raises an exception derived
      from [Exception] (what [except Exception] catches). *)

From Stdlib Require Import Ascii QArith Lqa.
From stdpp Require Import gmap strings list sorting.

Local Open Scope Z_scope.

(** ** Strings: [str.lower] and the substring test [needle in s] *)

Definition lower_ascii (c : ascii) : ascii :=
  let n := nat_of_ascii c in
  if ((65 <=? n) && (n <=? 90))%nat then ascii_of_nat (n + 32) else c.

Fixpoint lower (s : string) : string :=
  match s with
  | EmptyString => EmptyString
  | String c rest => String (lower_ascii c) (lower rest)
  end.

Fixpoint starts_with (p s : string) : bool :=
  match p, s with
  | EmptyString, _ => true
  | String _ _, EmptyString => false
  | String a p', String b s' => bool_decide (a = b) && starts_with p' s'
  end.

(** [str_in needle s] is Python's [needle in s]. *)
Fixpoint str_in (needle s : string) : bool :=
  starts_with needle s ||
  match s with
  | EmptyString => false
  | String _ s' => str_in needle s'
  end.

(** [contains needle s]: [needle] occurs in [s] as a contiguous run. *)
Definition contains (needle s : string) : Prop :=
  ∃ a b, s = a +:+ needle +:+ b.

(** [c] names a timestamp for the page: it contains "date" or "time",
    whatever the case. *)
Definition datetime_like (c : string) : bool :=
  str_in "date" (lower c) || str_in "time" (lower c).

(** ** Cells, labels, timestamps *)

(** The calendar fields of a pandas [Timestamp] that the page reads,
    with the ranges the library guarantees for them. *)
Record Timestamp := {
  ts_year : Z;
  ts_month : Z;
  ts_day : Z;
  ts_hour : Z;
  ts_minute : Z;
  ts_month_range : Is_true ((1 <=? ts_month) && (ts_month <=? 12));
  ts_hour_range : Is_true ((0 <=? ts_hour) && (ts_hour <=? 23));
}.

(** The content of a cell. *)
Inductive value :=
  | VNaN                     (* NaN / NaT / None *)
  | VNum (q : Q)             (* a float *)
  | VInt (z : Z)             (* an integer *)
  | VStr (s : string)
  | VTime (t : Timestamp).

(** A column label: a string, or any other hashable (an integer, say). *)
Inductive label :=
  | LStr (s : string)
  | LOther (k : Z).

Global Instance label_eq_dec : EqDecision label.
Proof. solve_decision. Defined.

Global Instance label_countable : Countable label.
Proof.
  refine (inj_countable'
    (fun l => match l with LStr s => inl s | LOther k => inr k end)
    (fun x => match x with inl s => LStr s | inr k => LOther k end) _).
  by intros [].
Defined.

Definition is_str (c : label) : Prop :=
  match c with LStr _ => True | LOther _ => False end.

(** The string a label is, if it is one ([c.lower()] needs one). *)
Definition label_str (c : label) : option string :=
  match c with LStr s => Some s | LOther _ => None end.

Definition isna (v : value) : bool :=
  match v with VNaN => true | _ => false end.

(** ** DataFrames *)

Record DataFrame := {
  columns : list label;                 (* df.columns, in order *)
  records : list (gmap label value);    (* one dictionary per row *)
}.

(** [pd.DataFrame()] *)
Definition empty_frame : DataFrame := {| columns := []; records := [] |}.

(** [df.empty]: some axis has length zero. *)
Definition df_empty (df : DataFrame) : bool :=
  match columns df, records df with
  | [], _ | _, [] => true
  | _, _ => false
  end.

Definition cell (c : label) (r : gmap label value) : value :=
  default VNaN (r !! c).

(** What [df[c]] evaluates to: a Series when the label names one column,
    a DataFrame when the label is repeated, a [KeyError] otherwise. *)
Inductive selection :=
  | Series (cells : list value)
  | SubFrame
  | KeyError.

Definition getitem (df : DataFrame) (c : label) : selection :=
  match count_occ label_eq_dec (columns df) c with
  | O => KeyError
  | S O => Series (fmap (cell c) (records df))
  | _ => SubFrame
  end.

(** [df[c] = series]: the series is aligned on the row index (short
    series are padded with NaN, extra cells dropped); a new label is
    appended to the column index, an existing one is overwritten. *)
Definition setitem (df : DataFrame) (c : label) (cells : list value)
    : DataFrame :=
  {| columns := if bool_decide (c ∈ columns df) then columns df
                else columns df ++ [c];
     records := zip_with (fun r v => <[c := v]> r) (records df)
                  (resize (length (records df)) VNaN cells) |}.

(** [df.dropna(subset=[c])] *)
Definition dropna (df : DataFrame) (c : label) : DataFrame :=
  {| columns := columns df;
     records := filter (fun r => isna (cell c r) = false) (records df) |}.

(** [df.copy()] builds a new object with the same content; the new
    identity comes from the allocation in the heap below. *)
Definition copy (df : DataFrame) : DataFrame :=
  {| columns := columns df; records := records df |}.

Definition of_timestamp (o : option Timestamp) : value :=
  match o with Some t => VTime t | None => VNaN end.

(** ** Pivot table, interpolation, fill *)

(** A numeric cell as pandas' mean sees it: [Some None] is NaN (skipped),
    [None] is a cell a mean cannot be taken of. *)
Definition as_float (v : value) : option (option Q) :=
  match v with
  | VNaN => Some None
  | VNum q => Some (Some q)
  | VInt z => Some (Some (inject_Z z))
  | VStr _ | VTime _ => None
  end.

Definition as_int (v : value) : option Z :=
  match v with VInt z => Some z | _ => None end.

Definition Qsum (l : list Q) : Q := foldr Qplus 0%Q l.

(** The arithmetic mean of a list of numbers: sum over count. *)
Definition mean (qs : list Q) : Q :=
  (Qsum qs / inject_Z (Z.of_nat (length qs)))%Q.

(** Mean with [skipna=True]: NaN cells are left out; NaN when nothing is left. *)
Definition nanmean (l : list (option Q)) : option Q :=
  match omap id l with
  | [] => None
  | xs => Some (mean xs)
  end.

Definition sorted_distinct (l : list Z) : list Z :=
  merge_sort Z.le (remove_dups l).

(** The frame a pivot produces, stored by column as pandas does:
    [pv_data] has one list per column label, indexed like [pv_index]. *)
Record Pivot := {
  pv_index : list Z;
  pv_columns : list Z;
  pv_data : list (list (option Q));
}.

Section PivotTable.
(** One entry per row: ((index key, column key), value cell). *)
Variable rows : list ((Z * Z) * option Q).

Definition group_keys : list (Z * Z) := remove_dups rows.*1.

Definition group_values (k : Z * Z) : list (option Q) :=
  (filter (fun r => r.1 = k) rows).*2.

(** groupby(keys).mean() followed by dropna(how="all"): the groups
    whose mean is NaN are gone. *)
Definition agged : list ((Z * Z) * Q) :=
  omap (fun k => (fun v => (k, v)) <$> nanmean (group_values k)) group_keys.

Definition agged_map : gmap (Z * Z) Q := list_to_map agged.

(** unstack: sorted index and column labels, NaN where no group is. *)
Definition pivot_of_rows : Pivot :=
  let idx := sorted_distinct (agged.*1.*1) in
  let cols := sorted_distinct (agged.*1.*2) in
  {| pv_index := idx;
     pv_columns := cols;
     pv_data :=
       fmap (fun m => fmap (fun h => agged_map !! (h, m)) idx) cols |}.
End PivotTable.

(** What the pivot reads in one record: the two keys and the value. *)
Definition pivot_row (i c v : label) (r : gmap label value)
    : option ((Z * Z) * option Q) :=
  h ← as_int (cell i r);
  m ← as_int (cell c r);
  p ← as_float (cell v r);
  Some ((h, m), p).

Definition pivot_rows (df : DataFrame) (i c v : label)
    : option (list ((Z * Z) * option Q)) :=
  mapM (pivot_row i c v) (records df).

Definition unambiguous (df : DataFrame) (c : label) : bool :=
  bool_decide (count_occ label_eq_dec (columns df) c = 1%nat).

(** [df.pivot_table(index=i, columns=c, values=v, aggfunc="mean")] on a
    frame whose three labels are unambiguous, whose keys are integers and
    whose value cells are numbers or NaN. Every other frame is [None]:
    pandas raises on a value column that holds strings and on a repeated
    key label; a repeated value label is outside this model. *)
Definition pivot_table (df : DataFrame) (i c v : label) : option Pivot :=
  if unambiguous df i && unambiguous df c && unambiguous df v
  then pivot_of_rows <$> pivot_rows df i c v
  else None.

(** Distance to, and value of, the first known cell of [l]. *)
Fixpoint next_valid (l : list (option Q)) : option (nat * Q) :=
  match l with
  | [] => None
  | Some v :: _ => Some (O, v)
  | None :: t => (fun '(n, v) => (S n, v)) <$> next_valid t
  end.

(** One column of [interpolate(method="linear", axis=0)], walking down the
    rows. [prev] is the last known value above with the number of rows
    since it. Rows count as equally spaced ([method="linear"] ignores the
    index labels); NaN above the first known value stays (the default
    direction is forward), NaN below the last known value takes that value. *)
Fixpoint interpolate_from (prev : option (Q * nat)) (l : list (option Q))
    : list (option Q) :=
  match l with
  | [] => []
  | Some v :: t => Some v :: interpolate_from (Some (v, 1%nat)) t
  | None :: t =>
      match prev with
      | None => None
      | Some (a, d) =>
          match next_valid t with
          | None => Some a
          | Some (e, b) =>
              Some (a + (b - a) * (inject_Z (Z.of_nat d)
                                   / inject_Z (Z.of_nat (d + e + 1))))%Q
          end
      end :: interpolate_from ((fun '(a, d) => (a, S d)) <$> prev) t
  end.

Definition interpolate_column (l : list (option Q)) : list (option Q) :=
  interpolate_from None l.

(** [.fillna(0)] on one column. *)
Definition fillna0 (l : list (option Q)) : list Q :=
  fmap (default 0%Q) l.

(** [pivot.interpolate(method="linear", axis=0).fillna(0)], one column. *)
Definition fill_column (l : list (option Q)) : list Q :=
  fillna0 (interpolate_column l).

(** [.values]: the 2-D array, one row per index label. *)
Definition values (nrows : nat) (data : list (list Q)) : list (list Q) :=
  fmap (fun i => fmap (fun col => default 0%Q (col !! i)) data) (seq 0 nrows).

(** ** Figures *)

Record Surface := {
  surf_z : list (list Q);
  surf_x : list Z;
  surf_y : list Z;
  surf_colorscale : string;
}.

Record Layout := {
  template : string;
  paper_bgcolor : string;
  plot_bgcolor : string;
  xaxis_visible : option bool;   (* None: left at the library default *)
  yaxis_visible : option bool;
  title_text : option string;
}.

Record Figure := {
  fig_data : list Surface;
  fig_layout : Layout;
}.

(** The figure of the guard: no trace, both axes hidden. *)
Definition blank_figure : Figure :=
  {| fig_data := [];
     fig_layout :=
       {| template := "plotly_dark";
          paper_bgcolor := "rgba(0,0,0,0)";
          plot_bgcolor := "rgba(0,0,0,0)";
          xaxis_visible := Some false;
          yaxis_visible := Some false;
          title_text := None |} |}.

(** The [go.Surface] trace: [z=pivot.values], [x=pivot.columns],
    [y=pivot.index] after interpolation and fill. *)
Definition surface_trace (pv : Pivot) : Surface :=
  {| surf_z := values (length (pv_index pv)) (fmap fill_column (pv_data pv));
     surf_x := pv_columns pv;
     surf_y := pv_index pv;
     surf_colorscale := "Electric" |}.

Definition surface_figure (pv : Pivot) : Figure :=
  {| fig_data := [surface_trace pv];
     fig_layout :=
       {| template := "plotly_dark";
          paper_bgcolor := "rgba(0,0,0,0)";
          plot_bgcolor := "rgba(0,0,0,0)";
          xaxis_visible := None;
          yaxis_visible := None;
          title_text := Some "Hourly Price Terrain (Hologram)" |} |}.

(** The value the surface shows at hour [h] and month [m], if the grid
    has that row and that column. *)
Definition surface_at (s : Surface) (h m : Z) : option Q :=
  '(i, _) ← list_find (fun y => y = h) (surf_y s);
  '(j, _) ← list_find (fun x => x = m) (surf_x s);
  row ← surf_z s !! i;
  row !! j.

(** ** Dash components
    The constructors the page uses, each with the properties it sets (a
    style that is not given is the empty list). *)

#[warnings="-register-all"] Inductive Component :=
  | Div (className : option string) (style : list (string * string))
        (children : list Component)
  | H2 (children : string)
  | P (children : string) (className : option string)
      (style : list (string * string))
  | Graph (id : string) (className : string)
          (style : list (string * string)) (config : list (string * bool))
          (figure : Figure).

(** The figures a tree shows, in document order. *)
Fixpoint figures (c : Component) : list Figure :=
  match c with
  | Div _ _ children => concat (map figures children)
  | Graph _ _ _ _ figure => [figure]
  | H2 _ | P _ _ _ => []
  end.

(** The ids of the graphs of a tree, in document order. *)
Fixpoint graph_ids (c : Component) : list string :=
  match c with
  | Div _ _ children => concat (map graph_ids children)
  | Graph id _ _ _ _ => [id]
  | H2 _ | P _ _ _ => []
  end.

(** The tree of lines 154-177 around a figure. *)
Definition page_tree (figure : Figure) : Component :=
  Div None
    [("maxWidth", "1200px"); ("margin", "16px auto 32px auto");
     ("padding", "0 16px")]
    [Div (Some "glass-card") []
       [H2 "Market Price Topography";
        P ("3D Holographic view of average prices across time of day and year. "
           +:+ "Rotate the model to spot structural high-price ridges.")
          (Some "text-muted") [("fontSize", "0.9rem")];
        Graph "price-surface" "dash-graph"
          [("height", "75vh"); ("borderRadius", "16px")]
          [("displayModeBar", false)]
          figure]].

(** ** The process state and Python calls *)

Inductive outcome (A : Type) :=
  | Returned (a : A)
  | Raised.
Arguments Returned {A} a.
Arguments Raised {A}.

Abbreviation ref := nat.

(** [data_cache] and [figure_cache] are the single slots of the two
    [lru_cache(maxsize=1)] decorators; [fetches] counts the calls made to
    [load_master] so far. *)
Record World := {
  heap : gmap ref DataFrame;
  next_ref : ref;
  fetches : nat;
  data_cache : option (ref * option string);
  figure_cache : option Figure;
}.

Definition fresh_process : World :=
  {| heap := ∅; next_ref := O; fetches := O;
     data_cache := None; figure_cache := None |}.

Definition set_heap (h : gmap ref DataFrame) (w : World) : World :=
  {| heap := h; next_ref := next_ref w; fetches := fetches w;
     data_cache := data_cache w; figure_cache := figure_cache w |}.

Definition set_data_cache (v : ref * option string) (w : World) : World :=
  {| heap := heap w; next_ref := next_ref w; fetches := fetches w;
     data_cache := Some v; figure_cache := figure_cache w |}.

Definition set_figure_cache (f : Figure) (w : World) : World :=
  {| heap := heap w; next_ref := next_ref w; fetches := fetches w;
     data_cache := data_cache w; figure_cache := Some f |}.

Definition M (A : Type) : Type := World -> outcome A * World.

Global Instance M_ret : MRet M := fun A a w => (Returned a, w).
Global Instance M_bind : MBind M := fun A B f c w =>
  match c w with
  | (Returned a, w') => f a w'
  | (Raised, w') => (Raised, w')
  end.

Definition raise {A} : M A := fun w => (Raised, w).

Definition lift {A} (o : option A) : M A :=
  match o with Some a => mret a | None => raise end.

(** [try: body  except Exception: handler] *)
Definition try_except {A} (body handler : M A) : M A := fun w =>
  match body w with
  | (Returned a, w') => (Returned a, w')
  | (Raised, w') => handler w'
  end.

(** A zero-argument function under [functools.lru_cache(maxsize=1)]:
    a stored result is returned as it is; otherwise the function runs and
    its result is stored, unless it raises. *)
Definition lru_cache {A} (slot : World -> option A)
    (fill : A -> World -> World) (f : M A) : M A := fun w =>
  match slot w with
  | Some a => (Returned a, w)
  | None =>
      match f w with
      | (Returned a, w') => (Returned a, fill a w')
      | (Raised, w') => (Raised, w')
      end
  end.

(** A new object. *)
Definition alloc (df : DataFrame) : M ref := fun w =>
  (Returned (next_ref w),
   {| heap := <[next_ref w := df]> (heap w); next_ref := S (next_ref w);
      fetches := fetches w; data_cache := data_cache w;
      figure_cache := figure_cache w |}).

Definition deref (l : ref) : M DataFrame := fun w =>
  match heap w !! l with
  | Some df => (Returned df, w)
  | None => (Raised, w)
  end.

(** In-place change of the object at [l]. *)
Definition mutate (l : ref) (f : DataFrame -> DataFrame) : M unit :=
  fun w =>
  match heap w !! l with
  | Some df => (Returned tt, set_heap (<[l := f df]> (heap w)) w)
  | None => (Raised, w)
  end.

(** What one call of the upstream [load_master] does. *)
Inductive loaded :=
  | LoadFrame (df : DataFrame)   (* returns a DataFrame *)
  | LoadOther                    (* returns some other object *)
  | LoadRaises.                  (* raises *)

(** A Series is needed: [pd.to_datetime] raises on a frame with repeated
    labels, and a missing label is a [KeyError]. *)
Definition series_of (s : selection) : option (list value) :=
  match s with Series cells => Some cells | _ => None end.

(** [series.dt.month], [series.dt.hour]: the accessor exists on
    datetime columns only. *)
Definition dt_month (v : value) : option value :=
  match v with
  | VTime t => Some (VInt (ts_month t))
  | VNaN => Some VNaN
  | _ => None
  end.

Definition dt_hour (v : value) : option value :=
  match v with
  | VTime t => Some (VInt (ts_hour t))
  | VNaN => Some VNaN
  | _ => None
  end.

Definition datetime : label := LStr "datetime".

(** Lines 41-47. *)
Definition choose_price_col (cols : list label) : option string :=
  if bool_decide (LStr "standardized_price" ∈ cols)
  then Some "standardized_price"
  else if bool_decide (LStr "charge" ∈ cols) then Some "charge"
  else None.

(** ** The page's two functions *)

Section Page.
(** [load_master n] is what the [n]-th call of the upstream loader does
    (it may differ from call to call). *)
Variable load_master : nat -> loaded.

(** [pd.to_datetime(series, errors="coerce")] on a Series: one timestamp
    per cell, or NaT for a cell that does not parse; how a cell parses
    may depend on the whole column (the format is inferred from it). *)
Variable to_datetime : list value -> list (option Timestamp).

(** [load_master()]: a reference to the frame the loader returned, or
    [None] when it returned something that is not a frame. *)
Definition call_load_master : M (option ref) := fun w =>
  let w' := {| heap := heap w; next_ref := next_ref w;
               fetches := S (fetches w); data_cache := data_cache w;
               figure_cache := figure_cache w |} in
  match load_master (fetches w) with
  | LoadFrame df => (l ← alloc df; mret (Some l)) w'
  | LoadOther => (Returned None, w')
  | LoadRaises => (Raised, w')
  end.

(** The cells assigned to [df["datetime"]] (lines 26-37); [None] when
    the step raises. No state is touched before the assignment. *)
Definition resolve_datetime (df : DataFrame) : option (list value) :=
  if bool_decide (datetime ∈ columns df) then
    s ← series_of (getitem df datetime);
    Some (of_timestamp <$> to_datetime s)
  else
    names ← mapM label_str (columns df);           (* c.lower() *)
    match List.filter datetime_like names with
    | c0 :: _ =>
        s ← series_of (getitem df (LStr c0));
        Some (of_timestamp <$> to_datetime s)
    | [] => Some (replicate (length (records df)) VNaN)   (* pd.NaT *)
    end.

(** The body of the [try] (lines 23-49). *)
Definition prepare : M (ref * option string) :=
  v ← call_load_master;
  l ← lift v;                                      (* df.columns *)
  df ← deref l;
  cells ← lift (resolve_datetime df);
  _ ← mutate l (fun d => setitem d datetime cells);
  df ← deref l;
  l' ← alloc (dropna df datetime);
  df ← deref l';
  mret (l', choose_price_col (columns df)).

(** The handler (lines 51-53); the [print] leaves the state alone. *)
Definition fallback : M (ref * option string) :=
  l ← alloc empty_frame;
  mret (l, None).

Definition get_surface_data : M (ref * option string) :=
  lru_cache data_cache set_data_cache (try_except prepare fallback).

(** Lines 75-147: the copy, the two derived columns, the pivot, the
    figure. *)
Definition build_surface (l : ref) (price_col : string) : M Figure :=
  df ← deref l;
  l ← alloc (copy df);
  df ← deref l;
  s ← lift (series_of (getitem df datetime));
  months ← lift (mapM dt_month s);
  _ ← mutate l (fun d => setitem d (LStr "month") months);
  df ← deref l;
  s ← lift (series_of (getitem df datetime));
  hours ← lift (mapM dt_hour s);
  _ ← mutate l (fun d => setitem d (LStr "hour") hours);
  df ← deref l;
  pivot ← lift (pivot_table df (LStr "hour") (LStr "month")
                  (LStr price_col));
  mret (surface_figure pivot).

Definition build_surface_figure_body : M Figure :=
  '(l, price_col) ← get_surface_data;
  df ← deref l;
  match price_col with
  | Some pc => if df_empty df then mret blank_figure else build_surface l pc
  | None => mret blank_figure
  end.

Definition build_surface_figure : M Figure :=
  lru_cache figure_cache set_figure_cache build_surface_figure_body.

(** [layout()] (lines 153-177): the children are built in order, the
    figure last, by a call of [build_surface_figure]. *)
Definition layout : M Component :=
  figure ← build_surface_figure;
  mret (page_tree figure).
End Page.

(** ** Pure readings of the two bodies

    What the build computes from the content of the prepared frame, and
    what the preparation stores for a loaded frame. The lemmas below show
    that the stateful functions compute exactly these. *)

(** [df[c] = df["datetime"].dt.<field>] *)
Definition derive (field : value -> option value) (c : label)
    (df : DataFrame) : option DataFrame :=
  s ← series_of (getitem df datetime);
  cells ← mapM field s;
  Some (setitem df c cells).

(** The copy with its 'month' and 'hour' columns (lines 75-77). *)
Definition keyed (df : DataFrame) : option DataFrame :=
  derive dt_month (LStr "month") (copy df) ≫= derive dt_hour (LStr "hour").

(** Lines 75-147 on the content of the prepared frame. *)
Definition surface_of (df : DataFrame) (price_col : string)
    : option Figure :=
  d ← keyed df;
  pivot ← pivot_table d (LStr "hour") (LStr "month") (LStr price_col);
  Some (surface_figure pivot).

(** What the pivot reads from one prepared record: the hour and month of
    its timestamp and its price cell. *)
Definition observe (price_col : label) (r : gmap label value)
    : option ((Z * Z) * option Q) :=
  match cell datetime r with
  | VTime t =>
      p ← as_float (cell price_col r);
      Some ((ts_hour t, ts_month t), p)
  | _ => None
  end.


(** The figure for a prepared pair: the guard, then the surface. *)
Definition figure_of (df : DataFrame) (price_col : option string)
    : option Figure :=
  match price_col with
  | Some pc => if df_empty df then Some blank_figure else surface_of df pc
  | None => Some blank_figure
  end.

(** The frame preparation stores: [df] with its timestamps, without the
    rows whose timestamp is missing (lines 27-39). *)
Definition prepared (df : DataFrame) (cells : list value) : DataFrame :=
  dropna (setitem df datetime cells) datetime.

Definition outcome_of {A} (o : option A) : outcome A :=
  match o with Some a => Returned a | None => Raised end.

Section Readings.
Variable to_datetime : list value -> list (option Timestamp).

(** What preparation yields for one behaviour of the loader: the frame
    it stores and the price field. *)
Definition prepared_result (ld : loaded) : DataFrame * option string :=
  match ld with
  | LoadFrame df =>
      match resolve_datetime to_datetime df with
      | Some cells =>
          let d := prepared df cells in (d, choose_price_col (columns d))
      | None => (empty_frame, None)
      end
  | LoadOther | LoadRaises => (empty_frame, None)
  end.
End Readings.

(** The frame and the price field a process works on: what preparation
    yields for the first answer of the loader. *)
Definition process_data (load_master : nat -> loaded)
    (to_datetime : list value -> list (option Timestamp))
    : DataFrame * option string :=
  prepared_result to_datetime (load_master O).

(** Some record of [df] with hour [h] and month [m] has a number in its
    column [pc]. *)
Definition has_price (df : DataFrame) (pc : label) (h m : Z) : Prop :=
  ∃ r t q, r ∈ records df ∧ cell datetime r = VTime t ∧
           ts_hour t = h ∧ ts_month t = m ∧
           as_float (cell pc r) = Some (Some q).

(** Every number in column [pc] of [df] lies between [lo] and [hi]. *)
Definition prices_within (lo hi : Q) (df : DataFrame) (pc : label) : Prop :=
  ∀ r q, r ∈ records df → as_float (cell pc r) = Some (Some q) →
         (lo <= q <= hi)%Q.

(** Reading the traces of the figure a call returned. *)
Definition traces (o : outcome Figure) : list Surface :=
  match o with Returned f => fig_data f | Raised => [] end.

(** ** The specification's words *)

(** The first label that is a string containing "date" or "time",
    whatever the case. *)
Definition first_datetime_like (cols : list label) : option string :=
  head (omap (fun c => match c with
                       | LStr s => if datetime_like s then Some s else None
                       | LOther _ => None
                       end) cols).

Section Resolution.
Variable to_datetime : list value -> list (option Timestamp).

(** The timestamp cells as the specification words them: the column
    named 'datetime' parsed if there is one; otherwise the first column
    whose name contains "date" or "time" whatever the case, parsed; all
    missing if there is no such column. *)
Definition spec_timestamp_cells (df : DataFrame) : list value :=
  if bool_decide (datetime ∈ columns df) then
    of_timestamp <$> to_datetime (cell datetime <$> records df)
  else
    match first_datetime_like (columns df) with
    | Some c => of_timestamp <$> to_datetime (cell (LStr c) <$> records df)
    | None => replicate (length (records df)) VNaN
    end.

End Resolution.










(** The price field chosen by priority among the columns of [df]. *)
Definition price_priority (df : DataFrame) (pc : option string) : Prop :=
  (LStr "standardized_price" ∈ columns df →
   pc = Some "standardized_price") ∧
  (LStr "standardized_price" ∉ columns df →
   LStr "charge" ∈ columns df → pc = Some "charge") ∧
  (LStr "standardized_price" ∉ columns df →
   LStr "charge" ∉ columns df → pc = None).

(** ** Worlds *)

(** [w'] is [w] with more objects: counters and caches as they were, and
    every object of [w] untouched. *)
Definition extends (w w' : World) : Prop :=
  fetches w' = fetches w ∧
  data_cache w' = data_cache w ∧
  figure_cache w' = figure_cache w ∧
  (next_ref w <= next_ref w')%nat ∧
  ∀ l, (l < next_ref w)%nat → heap w' !! l = heap w !! l.

(** References handed out so far are below [next_ref]; the cached
    preparation result is one of them and names a live object. *)
Definition wf (w : World) : Prop :=
  ∀ l pc, data_cache w = Some (l, pc) →
    (l < next_ref w)%nat ∧ is_Some (heap w !! l).

(** The world after a call. *)
Definition after {A} (c : M A) (w : World) : World := (c w).2.

(** The result of a call. *)
Definition result {A} (c : M A) (w : World) : outcome A := (c w).1.

(** The states of a process: it starts fresh and calls the two functions
    in any order. *)
Inductive reachable (load_master : nat -> loaded)
    (to_datetime : list value -> list (option Timestamp)) : World -> Prop :=
  | reach_fresh : reachable load_master to_datetime fresh_process
  | reach_get w :
      reachable load_master to_datetime w ->
      reachable load_master to_datetime
        (after (get_surface_data load_master to_datetime) w)
  | reach_build w :
      reachable load_master to_datetime w ->
      reachable load_master to_datetime
        (after (build_surface_figure load_master to_datetime) w).

(** ** Sample frames and loaders *)

Definition on (month hour : Z)
    (Hm : Is_true ((1 <=? month) && (month <=? 12)))
    (Hh : Is_true ((0 <=? hour) && (hour <=? 23))) : Timestamp :=
  {| ts_year := 2024; ts_month := month; ts_day := 15; ts_hour := hour;
     ts_minute := 0; ts_month_range := Hm; ts_hour_range := Hh |}.

(** A parser for columns that already hold timestamps: every other cell
    is unparseable. *)
Definition keep_timestamps (cells : list value) : list (option Timestamp) :=
  fmap (fun v => match v with VTime t => Some t | _ => None end) cells.

Definition priced (t : value) (p : value) : gmap label value :=
  {[ datetime := t; LStr "standardized_price" := p ]}.

Definition price_columns : list label :=
  [datetime; LStr "standardized_price"].

(** (h=0,m=1,10), (h=2,m=1,20). *)
Definition two_records : DataFrame :=
  {| columns := price_columns;
     records := [ priced (VTime (on 1 0 I I)) (VNum 10);
                  priced (VTime (on 1 2 I I)) (VNum 20) ] |}.

(** The same with (h=1,m=2,7) and a record whose timestamp does not parse. *)
Definition three_records : DataFrame :=
  {| columns := price_columns;
     records := [ priced (VTime (on 1 0 I I)) (VNum 10);
                  priced (VTime (on 1 2 I I)) (VNum 20);
                  priced (VStr "n/a") (VNum 99);
                  priced (VTime (on 2 1 I I)) (VNum 7) ] |}.


(** (h=0,m=1,10), (h=3,m=1,40), (h=1,m=2,7): the rows are the hours
    0, 1 and 3. *)
Definition uneven_hours : DataFrame :=
  {| columns := price_columns;
     records := [ priced (VTime (on 1 0 I I)) (VNum 10);
                  priced (VTime (on 1 3 I I)) (VNum 40);
                  priced (VTime (on 2 1 I I)) (VNum 7) ] |}.

(** (h=0,m=1,10), (h=1,m=1,NaN), (h=2,m=1,20), (h=1,m=2,30). *)
Definition missing_price : DataFrame :=
  {| columns := price_columns;
     records := [ priced (VTime (on 1 0 I I)) (VNum 10);
                  priced (VTime (on 1 1 I I)) VNaN;
                  priced (VTime (on 1 2 I I)) (VNum 20);
                  priced (VTime (on 2 1 I I)) (VNum 30) ] |}.

(** An integer label beside the price column, no 'datetime' column. *)
Definition integer_label : DataFrame :=
  {| columns := [LOther 0; LStr "standardized_price"];
     records := [ {[ LOther 0 := VTime (on 1 0 I I);
                     LStr "standardized_price" := VNum 10 ]} ] |}.


(** The timestamp under another name. *)
Definition start_time : DataFrame :=
  {| columns := [LStr "Region"; LStr "Start Time"; LStr "charge"];
     records := [ {[ LStr "Region" := VStr "west";
                     LStr "Start Time" := VTime (on 3 14 I I);
                     LStr "charge" := VNum 5 ]} ] |}.


(** No timestamp-like column at all. *)
Definition no_timestamp : DataFrame :=
  {| columns := [LStr "region"; LStr "charge"];
     records := [ {[ LStr "region" := VStr "west";
                     LStr "charge" := VNum 5 ]} ] |}.

(** Timestamps but no price column. *)
Definition no_price : DataFrame :=
  {| columns := [datetime; LStr "region"];
     records := [ {[ datetime := VTime (on 1 0 I I);
                     LStr "region" := VStr "west" ]} ] |}.

(** A loader whose second fetch differs from the first. *)
Definition changing_loader (n : nat) : loaded :=
  match n with
  | O => LoadFrame three_records
  | _ => LoadFrame two_records
  end.

Definition always (df : DataFrame) (n : nat) : loaded := LoadFrame df.


(** The timestamp cells [keep_timestamps] gives for a 'datetime' column. *)
Definition kept (df : DataFrame) : list value :=
  of_timestamp <$> keep_timestamps (cell datetime <$> records df).

(** A process in which preparation has run on [missing_price]. *)
Definition after_preparation : World :=
  after (get_surface_data (always missing_price) keep_timestamps)
        fresh_process.

(** A process whose cached preparation result is the fallback. *)
Definition after_fallback : World :=
  after (get_surface_data (fun _ => LoadRaises) keep_timestamps)
        fresh_process.

(** ** Proof automation for the state monad *)

Ltac run_step :=
  unfold mbind, M_bind, mret, M_ret, lift, raise, deref, alloc, mutate; simpl.

(** Closes [∃ w', (o, w0) = (o, w') ∧ extends w w'] when [w0] is [w] with
    objects added or changed at references from [next_ref w] on. *)
Ltac solve_extends :=
  eexists; split; [reflexivity|];
  repeat split; simpl; try done; try lia;
  intros; simplify_eq/=;
  rewrite ?lookup_insert_eq; repeat (rewrite lookup_insert_ne by lia);
  done.

(** Closes the description of the world a cache miss leaves behind. *)
Ltac solve_miss :=
  do 2 eexists; split; [reflexivity|];
  repeat split; simpl; try done; try lia;
  try (by rewrite lookup_insert_eq);
  intros; repeat (rewrite lookup_insert_ne by lia); done.

(** * Properties *)

(** ** The monad and the heap *)

Lemma extends_refl w : extends w w.
Proof. by repeat split. Qed.

Lemma wf_fresh_process : wf fresh_process.
Proof. by intros l pc. Qed.

(** ** Substrings *)

Lemma starts_with_spec p s :
  starts_with p s = true ↔ ∃ b, s = p +:+ b.
Proof.
  revert s. induction p as [|a p IH]; intros s; simpl.
  - split; [by exists s|done].
  - destruct s as [|b s]; simpl.
    + split; [done|]. by intros [? ?].
    + rewrite andb_true_iff, bool_decide_eq_true, IH. split.
      * intros [-> [t ->]]. by exists t.
      * intros [t Ht]. injection Ht as -> ->. split; [done|by exists t].
Qed.

Lemma str_in_spec needle s :
  str_in needle s = true ↔ contains needle s.
Proof.
  unfold contains. induction s as [|c s IH]; simpl.
  - rewrite orb_false_r, starts_with_spec. split.
    + intros [b Hb]. by exists EmptyString, b.
    + intros [a [b Hab]]. destruct a as [|? ?]; [by exists b|done].
  - rewrite orb_true_iff, starts_with_spec, IH. split.
    + intros [[b Hb]|[a [b Hab]]].
      * by exists EmptyString, b.
      * exists (String c a), b. simpl. by rewrite Hab.
    + intros [a [b Hab]]. destruct a as [|c' a]; simpl in Hab.
      * left. by exists b.
      * right. injection Hab as -> ->. by exists a, b.
Qed.

Lemma datetime_like_spec s :
  datetime_like s = true ↔
  contains "date" (lower s) ∨ contains "time" (lower s).
Proof.
  unfold datetime_like. by rewrite orb_true_iff, !str_in_spec.
Qed.

(** ** Sorted distinct labels *)

Lemma elem_of_sorted_distinct l x : x ∈ sorted_distinct l ↔ x ∈ l.
Proof.
  unfold sorted_distinct.
  by rewrite merge_sort_Permutation, elem_of_remove_dups.
Qed.

Lemma NoDup_sorted_distinct l : NoDup (sorted_distinct l).
Proof.
  unfold sorted_distinct. rewrite merge_sort_Permutation.
  apply NoDup_remove_dups.
Qed.

Lemma StronglySorted_le_lt (l : list Z) :
  StronglySorted Z.le l → NoDup l → StronglySorted Z.lt l.
Proof.
  induction 1 as [|x l _ IH Hx]; intros Hnd; constructor.
  - apply IH. by apply NoDup_cons_1_2 in Hnd.
  - apply NoDup_cons_1_1 in Hnd.
    apply Forall_forall. intros y Hy.
    pose proof (proj1 (Forall_forall _ _) Hx y Hy).
    assert (x ≠ y) by (by intros ->). lia.
Qed.

Lemma sorted_distinct_increasing l : StronglySorted Z.lt (sorted_distinct l).
Proof.
  apply StronglySorted_le_lt; [|apply NoDup_sorted_distinct].
  apply StronglySorted_merge_sort; apply _.
Qed.

(** ** Cells of a record *)

Lemma cell_insert_eq c v (r : gmap label value) : cell c (<[c := v]> r) = v.
Proof. unfold cell. by rewrite lookup_insert_eq. Qed.

Lemma cell_insert_ne c c' v (r : gmap label value) :
  c ≠ c' → cell c' (<[c := v]> r) = cell c' r.
Proof. intros Hne. unfold cell. by rewrite lookup_insert_ne. Qed.

(** ** Frames *)

Lemma setitem_columns_elem df c cells x :
  x ∈ columns (setitem df c cells) ↔ x ∈ columns df ∨ x = c.
Proof.
  unfold setitem. simpl.
  destruct (bool_decide_reflect (c ∈ columns df)) as [Hin|Hnin].
  - split; [by left|]. by intros [?| ->].
  - by rewrite elem_of_app, list_elem_of_singleton.
Qed.


Lemma records_setitem df c cells :
  length cells = length (records df) →
  records (setitem df c cells)
  = zip_with (fun r v => <[c := v]> r) (records df) cells.
Proof. intros Hlen. unfold setitem. simpl. by rewrite resize_all_alt. Qed.

Lemma count_occ_NoDup (cols : list label) c :
  NoDup cols → c ∈ cols → count_occ label_eq_dec cols c = 1%nat.
Proof.
  intros Hnd%NoDup_ListNoDup Hin%list_elem_of_In.
  by apply (proj1 (NoDup_count_occ' label_eq_dec cols) Hnd).
Qed.

Lemma getitem_series df c :
  count_occ label_eq_dec (columns df) c = 1%nat →
  getitem df c = Series (cell c <$> records df).
Proof. unfold getitem. by intros ->. Qed.

Lemma getitem_Some_series df c s :
  series_of (getitem df c) = Some s → s = cell c <$> records df.
Proof.
  unfold getitem. destruct (count_occ label_eq_dec (columns df) c) as [|[|n]];
    simpl; try done. by intros [= <-].
Qed.


Lemma choose_price_col_setitem df cells :
  choose_price_col (columns (setitem df datetime cells))
  = choose_price_col (columns df).
Proof.
  unfold choose_price_col.
  assert (∀ s, LStr s ≠ datetime →
               bool_decide (LStr s ∈ columns (setitem df datetime cells))
               = bool_decide (LStr s ∈ columns df)) as Hd.
  { intros s Hs. apply bool_decide_ext. rewrite setitem_columns_elem.
    split; [by intros [?|?]|by left]. }
  by rewrite !Hd.
Qed.

Lemma dropna_all_missing (rs : list (gmap label value)) c vs :
  Forall (fun v => v = VNaN) vs →
  filter (fun r => isna (cell c r) = false)
         (zip_with (fun r v => <[c := v]> r) rs vs) = [].
Proof.
  intros Hvs. revert rs. induction Hvs as [|v vs -> _ IH]; intros [|r rs];
    simpl; try done.
  rewrite filter_cons_False; [apply IH|]. by rewrite cell_insert_eq.
Qed.

Lemma df_empty_no_records df : records df = [] → df_empty df = true.
Proof. unfold df_empty. intros ->. by destruct (columns df). Qed.

Lemma mapM_label_str cols :
  Forall is_str cols →
  ∃ names, mapM label_str cols = Some names ∧ cols = LStr <$> names.
Proof.
  induction 1 as [|c cols Hc _ (names & Hm & ->)].
  - by exists [].
  - destruct c as [s|]; [|done]. exists (s :: names).
    split; [|done]. simpl. by rewrite Hm.
Qed.

Lemma first_datetime_like_filter names :
  first_datetime_like (LStr <$> names) = head (List.filter datetime_like names).
Proof.
  unfold first_datetime_like. induction names as [|s names IH]; [done|].
  simpl. by destruct (datetime_like s).
Qed.

Lemma first_datetime_like_elem cols c :
  first_datetime_like cols = Some c →
  LStr c ∈ cols ∧ datetime_like c = true.
Proof.
  unfold first_datetime_like. induction cols as [|[s|k] cols IH]; simpl.
  - done.
  - destruct (datetime_like s) eqn:Hs; simpl.
    + intros [= ->]. split; [left|done].
    + intros H. destruct (IH H). split; [by right|done].
  - intros H. destruct (IH H). split; [by right|done].
Qed.

Lemma derive_Some field c df d :
  derive field c df = Some d →
  ∃ s cells, series_of (getitem df datetime) = Some s ∧
             mapM field s = Some cells ∧ d = setitem df c cells.
Proof.
  unfold derive. intros H.
  apply bind_Some in H as (s & Hs & H).
  apply bind_Some in H as (cells & Hc & H).
  injection H as <-. by exists s, cells.
Qed.

Lemma keyed_columns df d :
  keyed df = Some d → LStr "month" ∈ columns d ∧ LStr "hour" ∈ columns d.
Proof.
  unfold keyed. intros H. apply bind_Some in H as (d1 & H1 & H2).
  apply derive_Some in H1 as (? & ? & _ & _ & ->).
  apply derive_Some in H2 as (? & ? & _ & _ & ->).
  rewrite !setitem_columns_elem. naive_solver.
Qed.

Lemma Forall2_datetime_insert (field : value → option value) c
    (rs : list (gmap label value)) vs cells :
  c ≠ datetime →
  length vs = length rs →
  Forall2 (fun r v => field (cell datetime r) = Some v)
          (zip_with (fun r v => <[c := v]> r) rs vs) cells ↔
  Forall2 (fun r v => field (cell datetime r) = Some v) rs cells.
Proof.
  intros Hc. revert vs cells.
  induction rs as [|r rs IH]; intros [|v vs] cells Hlen; simpl in *;
    try done.
  injection Hlen as Hlen. split.
  - intros H. inversion H as [|? x ? xs Hx Hxs]; subst.
    rewrite cell_insert_ne in Hx by done.
    constructor; [done|]. by apply (IH vs).
  - intros H. inversion H as [|? x ? xs Hx Hxs]; subst.
    constructor; [by rewrite cell_insert_ne|]. by apply IH.
Qed.

(** The derived column: one cell per record, computed from its
    timestamp. *)
Lemma derive_records field c df d :
  derive field c df = Some d →
  ∃ cells,
    Forall2 (fun r v => field (cell datetime r) = Some v) (records df) cells ∧
    d = setitem df c cells ∧
    records d = zip_with (fun r v => <[c := v]> r) (records df) cells.
Proof.
  intros (s & cells & Hs%getitem_Some_series & Hm & ->)%derive_Some.
  subst s. apply mapM_Some, Forall2_fmap_l in Hm.
  exists cells. split; [done|]. split; [done|].
  apply records_setitem. symmetry. by eapply Forall2_length.
Qed.


(** ** Groups and the pivot *)

Lemma agged_elem rows k v :
  (k, v) ∈ agged rows ↔
  k ∈ rows.*1 ∧ nanmean (group_values rows k) = Some v.
Proof.
  unfold agged, group_keys. rewrite list_elem_of_omap. split.
  - intros (k' & Hk' & Hv). rewrite elem_of_remove_dups in Hk'.
    destruct (nanmean (group_values rows k')) as [v'|] eqn:Hm; [|done].
    simpl in Hv. by injection Hv as -> ->.
  - intros [Hk Hv]. exists k. rewrite elem_of_remove_dups.
    split; [done|]. by rewrite Hv.
Qed.

Lemma agged_keys_NoDup rows : NoDup (agged rows).*1.
Proof.
  unfold agged, group_keys.
  generalize (NoDup_remove_dups rows.*1).
  generalize (remove_dups rows.*1). intros ks Hnd.
  induction Hnd as [|k ks Hk Hnd IH]; simpl; [constructor|].
  destruct (nanmean (group_values rows k)) as [v|]; simpl; [|done].
  constructor; [|done].
  intros ((k' & v') & Hkk & Hin)%list_elem_of_fmap. simpl in Hkk. subst k'.
  apply list_elem_of_omap in Hin as (k'' & Hk'' & Hv).
  destruct (nanmean (group_values rows k'')); [|done].
  simpl in Hv. by injection Hv as -> _.
Qed.

(** A cell of the unstacked frame is the mean of its group, NaN when
    the group has no number. *)
Lemma agged_map_lookup rows k v :
  agged_map rows !! k = Some v ↔
  k ∈ rows.*1 ∧ nanmean (group_values rows k) = Some v.
Proof.
  unfold agged_map.
  rewrite <- (elem_of_list_to_map _ _ _ (agged_keys_NoDup rows)).
  apply agged_elem.
Qed.

Lemma group_values_elem rows k p :
  p ∈ group_values rows k ↔ (k, p) ∈ rows.
Proof.
  unfold group_values. rewrite list_elem_of_fmap. split.
  - intros ([k' p'] & -> & [Hk Hin]%list_elem_of_filter). simpl in *.
    by subst k'.
  - intros Hin. exists (k, p). split; [done|].
    by apply list_elem_of_filter.
Qed.


Lemma nanmean_is_Some l : is_Some (nanmean l) ↔ ∃ q, Some q ∈ l.
Proof.
  unfold nanmean. destruct (omap id l) as [|x xs] eqn:Hx.
  - split; [by intros [? ?]|]. intros [q Hq].
    assert (q ∈ omap id l) as Hin by (apply list_elem_of_omap; by exists (Some q)).
    rewrite Hx in Hin. by apply elem_of_nil in Hin.
  - split; [|by eexists]. intros _. exists x.
    assert (x ∈ omap id l) as Hin by (rewrite Hx; left).
    by apply list_elem_of_omap in Hin as ([q|] & Hq & [= ->]).
Qed.

Lemma agged_map_is_Some rows k :
  is_Some (agged_map rows !! k) ↔ ∃ q, (k, Some q) ∈ rows.
Proof.
  split.
  - intros [v [_ Hv]%agged_map_lookup].
    destruct (proj1 (nanmean_is_Some _) (mk_is_Some _ _ Hv)) as [q Hq].
    exists q. by apply group_values_elem.
  - intros [q Hq].
    destruct (proj2 (nanmean_is_Some (group_values rows k))) as [v Hv];
      [exists q; by apply group_values_elem|].
    exists v. apply agged_map_lookup. split; [|done].
    apply list_elem_of_fmap. by exists (k, Some q).
Qed.

Lemma pivot_index_elem rows h :
  h ∈ pv_index (pivot_of_rows rows) ↔
  ∃ m v, agged_map rows !! (h, m) = Some v.
Proof.
  simpl. rewrite elem_of_sorted_distinct. split.
  - intros (k & -> & ((k' & v) & -> & Hin)%list_elem_of_fmap)%list_elem_of_fmap.
    destruct k' as [h m]. exists m, v. simpl.
    by apply agged_map_lookup, agged_elem.
  - intros (m & v & Hv%agged_map_lookup%agged_elem).
    apply list_elem_of_fmap. exists (h, m). split; [done|].
    apply list_elem_of_fmap. by exists ((h, m), v).
Qed.

Lemma pivot_columns_elem rows m :
  m ∈ pv_columns (pivot_of_rows rows) ↔
  ∃ h v, agged_map rows !! (h, m) = Some v.
Proof.
  simpl. rewrite elem_of_sorted_distinct. split.
  - intros (k & -> & ((k' & v) & -> & Hin)%list_elem_of_fmap)%list_elem_of_fmap.
    destruct k' as [h m]. exists h, v. simpl.
    by apply agged_map_lookup, agged_elem.
  - intros (h & v & Hv%agged_map_lookup%agged_elem).
    apply list_elem_of_fmap. exists (h, m). split; [done|].
    apply list_elem_of_fmap. by exists ((h, m), v).
Qed.


(** ** Interpolation and fill *)

Lemma length_interpolate_from prev l :
  length (interpolate_from prev l) = length l.
Proof.
  revert prev. induction l as [|[v|] l IH]; intros prev; simpl; by rewrite ?IH.
Qed.

Lemma length_fill_column l : length (fill_column l) = length l.
Proof.
  unfold fill_column, fillna0, interpolate_column.
  by rewrite length_fmap, length_interpolate_from.
Qed.

(** Known cells are left as they are. *)
Lemma interpolate_from_known prev l i v :
  l !! i = Some (Some v) → interpolate_from prev l !! i = Some (Some v).
Proof.
  revert prev i. induction l as [|[x|] l IH]; intros prev [|i] Hi;
    simpl in *; try done; by apply IH.
Qed.

Lemma fill_column_known l i v :
  l !! i = Some (Some v) → fill_column l !! i = Some v.
Proof.
  intros Hi. unfold fill_column, fillna0, interpolate_column.
  by rewrite list_lookup_fmap, (interpolate_from_known _ _ _ _ Hi).
Qed.







(** ** The surface trace *)



Lemma values_lookup n data i j col :
  (i < n)%nat → data !! j = Some col →
  values n data !! i ≫= (.!! j) = Some (default 0%Q (col !! i)).
Proof.
  intros Hi Hj. unfold values.
  rewrite list_lookup_fmap, lookup_seq_lt by done. simpl.
  by rewrite list_lookup_fmap, Hj.
Qed.

Lemma find_label (l : list Z) x :
  x ∈ l → ∃ i, list_find (fun y => y = x) l = Some (i, x) ∧ l !! i = Some x.
Proof.
  intros Hx. apply list_elem_of_lookup in Hx as [j Hj].
  destruct (list_find_elem_of (fun y => y = x) l x) as [[i y] Hfind];
    [by eapply list_elem_of_lookup_2|done|].
  pose proof Hfind as (Hi & -> & _)%list_find_Some. by exists i.
Qed.

(** A group with a mean shows that mean on the surface. *)
Lemma surface_trace_known rows h m v :
  agged_map rows !! (h, m) = Some v →
  surface_at (surface_trace (pivot_of_rows rows)) h m = Some v.
Proof.
  intros Hv.
  destruct (find_label (pv_index (pivot_of_rows rows)) h) as (i & Hfi & Hi);
    [apply pivot_index_elem; by exists m, v|].
  destruct (find_label (pv_columns (pivot_of_rows rows)) m) as (j & Hfj & Hj);
    [apply pivot_columns_elem; by exists h, v|].
  unfold surface_at, surface_trace.
  cbn [surf_y surf_x surf_z]. rewrite Hfi. cbn [mbind option_bind].
  rewrite Hfj. cbn [mbind option_bind].
  set (col := (fun h0 => agged_map rows !! (h0, m))
                <$> pv_index (pivot_of_rows rows)).
  assert (pv_data (pivot_of_rows rows) !! j = Some col) as Hcol.
  { cbn [pv_data pivot_of_rows]. rewrite list_lookup_fmap.
    cbn [pv_columns pivot_of_rows] in Hj. by rewrite Hj. }
  assert (col !! i = Some (Some v)) as Hcell.
  { unfold col. rewrite list_lookup_fmap, Hi. simpl. by rewrite Hv. }
  rewrite (values_lookup _ _ i j (fill_column col)).
  - by rewrite (fill_column_known _ _ _ Hcell).
  - by apply lookup_lt_Some in Hi.
  - by rewrite list_lookup_fmap, Hcol.
Qed.

(** The value shown at a row and a column of the grid is the filled
    column of that month at that row. *)
Lemma surface_trace_cell rows h m i j :
  pv_index (pivot_of_rows rows) !! i = Some h →
  pv_columns (pivot_of_rows rows) !! j = Some m →
  surface_at (surface_trace (pivot_of_rows rows)) h m
  = fill_column ((fun h0 => agged_map rows !! (h0, m))
                   <$> pv_index (pivot_of_rows rows)) !! i.
Proof.
  intros Hi Hj.
  assert (∀ (l : list Z) x n, NoDup l → l !! n = Some x →
            list_find (fun y => y = x) l = Some (n, x)) as Hfind.
  { intros l x n Hnd Hn. apply list_find_Some. split; [done|]. split; [done|].
    intros n' y Hn' Hlt ->.
    pose proof (NoDup_lookup _ _ _ _ Hnd Hn Hn'). lia. }
  unfold surface_at, surface_trace. cbn [surf_y surf_x surf_z].
  rewrite (Hfind (pv_index (pivot_of_rows rows)) _ _
             (NoDup_sorted_distinct _) Hi).
  cbn [mbind option_bind].
  rewrite (Hfind (pv_columns (pivot_of_rows rows)) _ _
             (NoDup_sorted_distinct _) Hj).
  cbn [mbind option_bind].
  set (col := (fun h0 => agged_map rows !! (h0, m))
                <$> pv_index (pivot_of_rows rows)).
  assert (pv_data (pivot_of_rows rows) !! j = Some col) as Hcol.
  { cbn [pv_data pivot_of_rows]. rewrite list_lookup_fmap.
    cbn [pv_columns pivot_of_rows] in Hj. by rewrite Hj. }
  rewrite (values_lookup _ _ i j (fill_column col)).
  - assert (i < length (fill_column col))%nat as Hlt.
    { unfold col. rewrite length_fill_column, length_fmap.
      by eapply lookup_lt_Some. }
    by destruct (lookup_lt_is_Some_2 _ _ Hlt) as [v ->].
  - by eapply lookup_lt_Some.
  - by rewrite list_lookup_fmap, Hcol.
Qed.


(** ** From prepared records to pivot rows *)

Lemma pivot_row_keyed pc (r : gmap label value) mv hv :
  pc ≠ LStr "hour" → pc ≠ LStr "month" →
  dt_month (cell datetime r) = Some mv →
  dt_hour (cell datetime r) = Some hv →
  pivot_row (LStr "hour") (LStr "month") pc
    (<[LStr "hour" := hv]> (<[LStr "month" := mv]> r))
  = observe pc r.
Proof.
  intros Hh Hm Hmv Hhv. unfold pivot_row, observe.
  rewrite cell_insert_eq, (cell_insert_ne (LStr "hour") (LStr "month")),
    cell_insert_eq, !(cell_insert_ne _ pc) by done.
  destruct (cell datetime r) as [| | | |t]; simpl in *; try done.
  - by injection Hhv as <-.
  - injection Hmv as <-. by injection Hhv as <-.
Qed.

Lemma pivot_rows_keyed pc (rs : list (gmap label value)) months hours :
  pc ≠ LStr "hour" → pc ≠ LStr "month" →
  Forall2 (fun r mv => dt_month (cell datetime r) = Some mv) rs months →
  Forall2 (fun r hv => dt_hour (cell datetime r) = Some hv) rs hours →
  mapM (pivot_row (LStr "hour") (LStr "month") pc)
       (zip_with (fun r v => <[LStr "hour" := v]> r)
          (zip_with (fun r v => <[LStr "month" := v]> r) rs months) hours)
  = mapM (observe pc) rs.
Proof.
  intros Hh Hm Hms. revert hours.
  induction Hms as [|r mv rs months Hmv _ IH]; intros hours Hhs.
  - by inversion Hhs.
  - inversion Hhs as [|? hv ? hours' Hhv Hhs']; subst. simpl.
    by rewrite (pivot_row_keyed pc r mv hv), IH.
Qed.


Lemma observe_Some pc (r : gmap label value) h m p :
  observe pc r = Some ((h, m), p) ↔
  ∃ t, cell datetime r = VTime t ∧ ts_hour t = h ∧ ts_month t = m ∧
       as_float (cell pc r) = Some p.
Proof.
  unfold observe. split.
  - destruct (cell datetime r) as [| | | |t]; try done.
    destruct (as_float (cell pc r)) as [p'|]; [|done]. simpl.
    intros [= <- <- <-]. by exists t.
  - intros (t & -> & <- & <- & ->). done.
Qed.

Lemma observed_rows pc (rs : list (gmap label value)) rows row :
  mapM (observe pc) rs = Some rows →
  row ∈ rows ↔ ∃ r, r ∈ rs ∧ observe pc r = Some row.
Proof.
  rewrite mapM_Some. intros HF. split.
  - intros [i Hi]%list_elem_of_lookup.
    destruct (Forall2_lookup_r _ _ _ _ _ HF Hi) as (r & Hr & Hobs).
    exists r. split; [by eapply list_elem_of_lookup_2|done].
  - intros (r & [i Hi]%list_elem_of_lookup & Hobs).
    destruct (Forall2_lookup_l _ _ _ _ _ HF Hi) as (row' & Hrow & Hobs').
    rewrite Hobs in Hobs'. injection Hobs' as <-.
    by eapply list_elem_of_lookup_2.
Qed.

(** A group has a mean exactly when some record with that hour and month
    has a number as its price. *)
Lemma priced_group pc (rs : list (gmap label value)) rows h m :
  mapM (observe pc) rs = Some rows →
  is_Some (agged_map rows !! (h, m)) ↔
  ∃ r t q, r ∈ rs ∧ cell datetime r = VTime t ∧
           ts_hour t = h ∧ ts_month t = m ∧
           as_float (cell pc r) = Some (Some q).
Proof.
  intros Hrows. rewrite agged_map_is_Some. split.
  - intros (q & (r & Hr & (t & ? & ? & ? & ?)%observe_Some)%(observed_rows _ _ _ _ Hrows)).
    by exists r, t, q.
  - intros (r & t & q & Hr & Hc & Hh & Hm & Hp). exists q.
    apply (observed_rows _ _ _ _ Hrows). exists r. split; [done|].
    apply observe_Some. by exists t.
Qed.

(** The surface is built from what [observe] reads in the records of the
    prepared frame. *)
Lemma surface_of_rows df pc f :
  LStr pc ≠ LStr "hour" → LStr pc ≠ LStr "month" →
  surface_of df pc = Some f →
  ∃ rows, mapM (observe (LStr pc)) (records df) = Some rows ∧
          f = surface_figure (pivot_of_rows rows).
Proof.
  intros Hh Hm. unfold surface_of, keyed.
  intros (d2 & Hk & (pv & Hpv & [= <-])%bind_Some)%bind_Some.
  apply bind_Some in Hk as (d1 & Hd1 & Hd2).
  apply derive_records in Hd1 as (months & Hms & -> & Hr1).
  apply derive_records in Hd2 as (hours & Hhs & -> & Hr2).
  change (records (copy df)) with (records df) in Hms, Hr1.
  rewrite Hr1 in Hhs, Hr2.
  apply Forall2_datetime_insert in Hhs;
    [|done|symmetry; by eapply Forall2_length].
  unfold pivot_table in Hpv.
  destruct (_ && _); [|done].
  apply fmap_Some in Hpv as (rows & Hrows & ->).
  exists rows. split; [|done].
  unfold pivot_rows in Hrows. rewrite Hr2 in Hrows.
  by rewrite (pivot_rows_keyed _ _ _ _ Hh Hm Hms Hhs) in Hrows.
Qed.


(** ** The prepared records and the loaded ones *)






(** ** What the two functions compute *)

Section PageFacts.
Variable load_master : nat -> loaded.
Variable to_datetime : list value -> list (option Timestamp).

Local Abbreviation get := (get_surface_data load_master to_datetime).
Local Abbreviation build := (build_surface_figure load_master to_datetime).
Local Abbreviation prepared_now w :=
  (prepared_result to_datetime (load_master (fetches w))).

Lemma build_surface_run l pc w df :
  heap w !! l = Some df →
  (l < next_ref w)%nat →
  ∃ w', build_surface l pc w = (outcome_of (surface_of df pc), w') ∧
        extends w w' ∧
        ∀ d, keyed df = Some d → heap w' !! next_ref w = Some d.
Proof.
  intros Hl Hlt. unfold build_surface, surface_of, keyed, derive.
  run_step. rewrite Hl. simpl. rewrite lookup_insert_eq. simpl.
  destruct (series_of (getitem (copy df) datetime)) as [s|]; simpl;
    [|solve_extends].
  destruct (mapM dt_month s) as [months|]; simpl; [|solve_extends].
  repeat (rewrite lookup_insert_eq; simpl).
  destruct (series_of (getitem _ datetime)) as [s'|]; simpl;
    [|solve_extends].
  destruct (mapM dt_hour s') as [hours|]; simpl; [|solve_extends].
  repeat (rewrite lookup_insert_eq; simpl).
  destruct (pivot_table _ _ _ _) as [pv|]; simpl; solve_extends.
Qed.

Lemma get_surface_data_miss w :
  data_cache w = None →
  ∃ l w',
    get w
      = (Returned (l, (prepared_now w).2), w') ∧
    heap w' !! l = Some (prepared_now w).1 ∧
    data_cache w' = Some (l, (prepared_now w).2) ∧
    (l < next_ref w')%nat ∧ (next_ref w <= l)%nat ∧
    fetches w' = S (fetches w) ∧
    figure_cache w' = figure_cache w ∧
    ∀ l0, (l0 < next_ref w)%nat → heap w' !! l0 = heap w !! l0.
Proof.
  intros Hc. unfold get_surface_data, lru_cache, try_except, prepare, fallback,
    call_load_master, prepared_result. rewrite Hc.
  run_step. destruct (load_master (fetches w)) as [df| |]; simpl.
  - rewrite lookup_insert_eq. simpl.
    destruct (resolve_datetime to_datetime df) as [cells|]; simpl.
    + repeat (rewrite lookup_insert_eq; simpl). solve_miss.
    + solve_miss.
  - solve_miss.
  - solve_miss.
Qed.

Lemma get_surface_data_hit w c :
  data_cache w = Some c →
  get w = (Returned c, w).
Proof. intros Hc. unfold get_surface_data, lru_cache. by rewrite Hc. Qed.

Lemma build_body_run w :
  wf w →
  ∃ l pc df w',
    build_surface_figure_body load_master to_datetime w
      = (outcome_of (figure_of df pc), w') ∧
    data_cache w' = Some (l, pc) ∧
    heap w' !! l = Some df ∧
    (l < next_ref w')%nat ∧
    figure_cache w' = figure_cache w ∧
    (next_ref w <= next_ref w')%nat ∧
    (∀ l0, (l0 < next_ref w)%nat → heap w' !! l0 = heap w !! l0) ∧
    match data_cache w with
    | Some c => c = (l, pc) ∧ fetches w' = fetches w
    | None => (df, pc) = prepared_now w
              ∧ fetches w' = S (fetches w)
    end.
Proof.
  intros Hwf. unfold build_surface_figure_body.
  destruct (data_cache w) as [[l pc]|] eqn:Hc.
  - destruct (Hwf l pc Hc) as [Hlt [df Hdf]].
    exists l, pc, df.
    unfold mbind, M_bind. rewrite (get_surface_data_hit _ _ Hc).
    unfold deref. rewrite Hdf.
    destruct pc as [p|]; simpl.
    + destruct (df_empty df).
      * exists w. by repeat split.
      * destruct (build_surface_run l p w df Hdf Hlt)
          as (w' & -> & (Hf & Hd & Hg & Hn & Hh) & _).
        exists w'. repeat split; try done.
        -- by rewrite Hd.
        -- by rewrite Hh.
        -- lia.
    + exists w. by repeat split.
  - destruct (get_surface_data_miss w Hc)
      as (l & w1 & Hrun & Hdf & Hc1 & Hlt & Hge & Hf & Hg & Hh).
    destruct (prepared_now w)
      as [df pc] eqn:Hp. simpl in *.
    exists l, pc, df.
    unfold mbind, M_bind. rewrite Hrun. unfold deref. rewrite Hdf.
    destruct pc as [p|]; simpl.
    + destruct (df_empty df).
      * exists w1. repeat split; try done. lia.
      * destruct (build_surface_run l p w1 df Hdf Hlt)
          as (w' & -> & (Hf' & Hd' & Hg' & Hn' & Hh') & _).
        exists w'. repeat split; try congruence; try lia.
        -- by rewrite Hh'.
        -- intros l0 Hl0. rewrite Hh' by lia. by apply Hh.
    + exists w1. repeat split; try done. lia.
Qed.

Lemma build_figure_hit w f :
  figure_cache w = Some f →
  build w = (Returned f, w).
Proof. intros Hc. unfold build_surface_figure, lru_cache. by rewrite Hc. Qed.

Lemma build_figure_miss w :
  wf w →
  figure_cache w = None →
  ∃ l pc df w',
    build w
      = (outcome_of (figure_of df pc), w') ∧
    data_cache w' = Some (l, pc) ∧
    heap w' !! l = Some df ∧
    (l < next_ref w')%nat ∧
    figure_cache w' = figure_of df pc ∧
    (next_ref w <= next_ref w')%nat ∧
    (∀ l0, (l0 < next_ref w)%nat → heap w' !! l0 = heap w !! l0) ∧
    match data_cache w with
    | Some c => c = (l, pc) ∧ fetches w' = fetches w
    | None => (df, pc) = prepared_now w
              ∧ fetches w' = S (fetches w)
    end.
Proof.
  intros Hwf Hfc.
  destruct (build_body_run w Hwf)
    as (l & pc & df & w' & Hrun & Hd & Hh & Hlt & Hf & Hn & Hpres & Hm).
  unfold build_surface_figure, lru_cache. rewrite Hfc, Hrun.
  exists l, pc, df.
  destruct (figure_of df pc) as [f|]; simpl.
  - exists (set_figure_cache f w'). by repeat split.
  - exists w'. repeat split; try done. congruence.
Qed.

Lemma build_figure_wf w :
  wf w → wf (after build w).
Proof.
  intros Hwf. unfold after.
  destruct (figure_cache w) as [f|] eqn:Hfc.
  - by rewrite (build_figure_hit _ _ Hfc).
  - destruct (build_figure_miss w Hwf Hfc)
      as (l & pc & df & w' & -> & Hd & Hh & Hlt & _).
    simpl. intros l' pc' Hc. rewrite Hd in Hc. injection Hc as <- <-.
    split; [done|]. by rewrite Hh.
Qed.

Lemma get_surface_data_wf w : wf w → wf (after get w).
Proof.
  intros Hwf. unfold after.
  destruct (data_cache w) as [c|] eqn:Hc.
  - by rewrite (get_surface_data_hit _ _ Hc).
  - destruct (get_surface_data_miss w Hc)
      as (l & w' & -> & Hh & Hd & Hlt & _).
    simpl. intros l' pc' Hc'. rewrite Hd in Hc'. injection Hc' as <- _.
    split; [done|]. by rewrite Hh.
Qed.

(** Every state of a process is well formed. *)
Lemma reachable_wf w : reachable load_master to_datetime w → wf w.
Proof.
  induction 1 as [|w _ IH|w _ IH].
  - apply wf_fresh_process.
  - by apply get_surface_data_wf.
  - by apply build_figure_wf.
Qed.

(** ** Memoisation *)

(** Once a call has been made, the next call gives the same result and
    does not fetch. *)
Lemma build_figure_again w :
  wf w →
  result build (after build w) = result build w ∧
  fetches (after build (after build w)) = fetches (after build w).
Proof.
  intros Hwf. unfold result, after.
  destruct (figure_cache w) as [f|] eqn:Hfc.
  - rewrite (build_figure_hit _ _ Hfc). simpl.
    by rewrite (build_figure_hit _ _ Hfc).
  - destruct (build_figure_miss w Hwf Hfc)
      as (l & pc & df & w' & -> & Hd & Hh & Hlt & Hf & Hn & Hpres & _).
    simpl. destruct (figure_of df pc) as [f|] eqn:Hfig.
    + by rewrite (build_figure_hit _ _ Hf).
    + assert (Hwf' : wf w').
      { intros l' pc' Hc. rewrite Hd in Hc. injection Hc as <- <-.
        split; [done|]. by rewrite Hh. }
      destruct (build_figure_miss w' Hwf' Hf)
        as (l2 & pc2 & df2 & w2 & -> & Hd2 & Hh2 & Hlt2 & Hf2 & Hn2 & Hpres2 & Hm).
      rewrite Hd in Hm. destruct Hm as [Heq Hfetch]. injection Heq as <- <-.
      rewrite Hpres2 in Hh2 by done. rewrite Hh in Hh2. injection Hh2 as <-.
      by rewrite Hfig.
Qed.

Lemma build_figure_wf_iter w n :
  wf w →
  wf (Nat.iter n (after build) w).
Proof.
  intros Hwf. induction n as [|n IH]; simpl; [done|].
  by apply build_figure_wf.
Qed.

(** C7. Memoisation: in any state of a process (all of them are well
    formed, [reachable_wf]), every call of [build_surface_figure] after a
    first one gives what the first one gave, whatever the loader would
    return on later fetches, and does not fetch again ([n = 0] is the
    second call). *)
Theorem build_surface_figure_memoised w :
  wf w →
  ∀ n,
    result build (Nat.iter n (after build) (after build w))
      = result build w ∧
    fetches (after build (Nat.iter n (after build) (after build w)))
      = fetches (after build w).
Proof.
  intros Hwf n. rewrite Nat.iter_swap.
  induction n as [|n [IHr IHf]]; [by apply build_figure_again|].
  destruct (build_figure_again (Nat.iter (S n) (after build) w)
              (build_figure_wf_iter w (S n) Hwf)) as [Hr Hf].
  split.
  - by rewrite Hr.
  - by rewrite Hf.
Qed.

(** ** The cached frame is left alone *)

Lemma build_figure_keeps w l pc df :
  wf w →
  data_cache w = Some (l, pc) →
  heap w !! l = Some df →
  let w' := after build w in
  data_cache w' = Some (l, pc) ∧ heap w' !! l = Some df.
Proof.
  intros Hwf Hc Hh. unfold after. simpl.
  destruct (figure_cache w) as [f|] eqn:Hfc.
  - by rewrite (build_figure_hit _ _ Hfc).
  - destruct (build_figure_miss w Hwf Hfc)
      as (l' & pc' & df' & w' & -> & Hd & Hh' & Hlt & Hf & Hn & Hpres & Hm).
    rewrite Hc in Hm. destruct Hm as [Heq _]. injection Heq as <- <-.
    simpl. split; [done|]. rewrite Hpres; [done|]. by apply (Hwf l pc).
Qed.

(** C10. The build works on a copy: after any number of calls of
    [build_surface_figure] the cached pair is the one preparation stored
    and the frame it names has the content it had; the derived 'month'
    and 'hour' columns are put on a new object, at a reference other than
    the cached one. *)
Theorem build_surface_figure_frame w l pc df :
  wf w →
  data_cache w = Some (l, pc) →
  heap w !! l = Some df →
  (∀ n, let w' := Nat.iter n (after build) w in
        data_cache w' = Some (l, pc) ∧ heap w' !! l = Some df) ∧
  (∀ p d, figure_cache w = None → pc = Some p → df_empty df = false →
          keyed df = Some d →
          let w' := after build w in
          heap w' !! next_ref w = Some d ∧ next_ref w ≠ l ∧
          LStr "month" ∈ columns d ∧ LStr "hour" ∈ columns d).
Proof.
  intros Hwf Hc Hh. split.
  - intros n. simpl.
    assert (wf (Nat.iter n (after build) w)
            ∧ data_cache (Nat.iter n (after build) w) = Some (l, pc)
            ∧ heap (Nat.iter n (after build) w) !! l = Some df)
      as (_ & ? & ?); [|done].
    induction n as [|n (IHwf & IHc & IHh)]; simpl; [done|].
    split; [by apply build_figure_wf|].
    by apply build_figure_keeps.
  - intros p d Hfc -> Hne Hk. simpl.
    destruct (Hwf l (Some p) Hc) as [Hlt _].
    unfold after, build_surface_figure, lru_cache, build_surface_figure_body.
    rewrite Hfc. unfold mbind, M_bind.
    rewrite (get_surface_data_hit _ _ Hc). unfold deref. rewrite Hh, Hne.
    destruct (build_surface_run l p w df Hh Hlt) as (w' & -> & _ & Hcopy).
    specialize (Hcopy d Hk).
    split; [|split; [lia|by apply (keyed_columns df)]].
    by destruct (surface_of df p).
Qed.

(** ** Preparation never raises *)

Lemma prepare_result w :
  result (prepare load_master to_datetime) w =
    match load_master (fetches w) with
    | LoadFrame df =>
        match resolve_datetime to_datetime df with
        | Some cells =>
            Returned (S (next_ref w),
                      choose_price_col (columns (prepared df cells)))
        | None => Raised
        end
    | LoadOther | LoadRaises => Raised
    end.
Proof.
  unfold result, prepare, call_load_master. run_step.
  destruct (load_master (fetches w)) as [df| |]; simpl; try done.
  rewrite lookup_insert_eq. simpl.
  destruct (resolve_datetime to_datetime df) as [cells|]; simpl; [|done].
  by repeat (rewrite lookup_insert_eq; simpl).
Qed.

Lemma prepared_result_frame ld :
  ∀ df, ld = LoadFrame df →
  prepared_result to_datetime ld =
    match resolve_datetime to_datetime df with
    | Some cells => (prepared df cells, choose_price_col (columns df))
    | None => (empty_frame, None)
    end.
Proof.
  intros df ->. unfold prepared_result.
  destruct (resolve_datetime to_datetime df) as [cells|]; [|done].
  change (columns (prepared df cells))
    with (columns (setitem df datetime cells)).
  by rewrite choose_price_col_setitem.
Qed.


(** ** The blank figure *)

Lemma prepared_result_price ld df :
  ld = LoadFrame df →
  LStr "standardized_price" ∉ columns df →
  LStr "charge" ∉ columns df →
  (prepared_result to_datetime ld).2 = None.
Proof.
  intros Hld Hsp Hch. rewrite (prepared_result_frame _ df Hld).
  destruct (resolve_datetime to_datetime df); [|done]. simpl.
  unfold choose_price_col. by rewrite !bool_decide_eq_false_2.
Qed.

(** C5. The guard: when the prepared frame is empty or no price field
    was resolved, [build_surface_figure] returns the blank figure (no
    trace, both axes hidden) and does not raise; this is the case whenever
    the loaded frame has neither a 'standardized_price' nor a 'charge'
    column, and whenever the loader raises or returns no frame. *)
Theorem build_surface_figure_blank w :
  wf w →
  figure_cache w = None →
  (∀ l pc df,
     data_cache w = Some (l, pc) →
     heap w !! l = Some df →
     df_empty df = true ∨ pc = None →
     build w
       = (Returned blank_figure, set_figure_cache blank_figure w)) ∧
  (∀ df,
     data_cache w = None →
     load_master (fetches w) = LoadFrame df →
     LStr "standardized_price" ∉ columns df →
     LStr "charge" ∉ columns df →
     result build w = Returned blank_figure) ∧
  (data_cache w = None →
   load_master (fetches w) = LoadRaises ∨
   load_master (fetches w) = LoadOther →
   result build w = Returned blank_figure) ∧
  fig_data blank_figure = [] ∧
  xaxis_visible (fig_layout blank_figure) = Some false ∧
  yaxis_visible (fig_layout blank_figure) = Some false.
Proof.
  intros Hwf Hfc. split; [|split; [|split; [|done]]].
  - intros l pc df Hc Hh Hguard.
    unfold build_surface_figure, lru_cache, build_surface_figure_body.
    rewrite Hfc. unfold mbind, M_bind.
    rewrite (get_surface_data_hit _ _ Hc). unfold deref. rewrite Hh.
    destruct pc as [p|]; [|done].
    destruct Hguard as [->|?]; done.
  - intros df Hc Hld Hsp Hch. unfold result.
    destruct (build_figure_miss w Hwf Hfc)
      as (l & pc & df' & w' & -> & _ & _ & _ & _ & _ & _ & Hm).
    rewrite Hc in Hm. destruct Hm as [Hm _].
    pose proof (prepared_result_price _ df Hld Hsp Hch) as Hp.
    rewrite <- Hm in Hp. simpl in Hp. by subst pc.
  - intros Hc Hld. unfold result.
    destruct (build_figure_miss w Hwf Hfc)
      as (l & pc & df' & w' & -> & _ & _ & _ & _ & _ & _ & Hm).
    rewrite Hc in Hm. destruct Hm as [Hm _].
    by destruct Hld as [Hld|Hld]; rewrite Hld in Hm; injection Hm as -> ->.
Qed.

(** ** Timestamps and the price field *)

(** The timestamp step on a frame with distinct labels which has a
    'datetime' column or only string labels: it does not raise, and it
    follows the priority the specification words. *)
Lemma resolve_datetime_spec df :
  NoDup (columns df) →
  datetime ∈ columns df ∨ Forall is_str (columns df) →
  resolve_datetime to_datetime df = Some (spec_timestamp_cells to_datetime df).
Proof.
  intros Hnd Hshape. unfold resolve_datetime, spec_timestamp_cells.
  destruct (bool_decide_reflect (datetime ∈ columns df)) as [Hin|Hnin].
  - by rewrite (getitem_series df datetime (count_occ_NoDup _ _ Hnd Hin)).
  - destruct Hshape as [?|Hstr]; [done|].
    destruct (mapM_label_str _ Hstr) as (names & -> & Hcols). simpl.
    rewrite Hcols, first_datetime_like_filter.
    destruct (List.filter datetime_like names) as [|c0 rest] eqn:Hf; [done|].
    simpl. assert (LStr c0 ∈ columns df) as Hc0.
    { rewrite Hcols. apply list_elem_of_fmap_2.
      apply list_elem_of_In, (proj1 (filter_In datetime_like c0 names)).
      rewrite Hf. by left. }
    by rewrite (getitem_series df _ (count_occ_NoDup _ _ Hnd Hc0)).
Qed.

(** Without a timestamp-like label the timestamp step either raises or
    makes every timestamp missing. *)
Lemma resolve_datetime_no_candidate df cells :
  datetime ∉ columns df →
  (∀ s, LStr s ∈ columns df →
        ¬ contains "date" (lower s) ∧ ¬ contains "time" (lower s)) →
  resolve_datetime to_datetime df = Some cells →
  cells = replicate (length (records df)) VNaN.
Proof.
  intros Hnin Hnone. unfold resolve_datetime.
  rewrite (bool_decide_eq_false_2 _ Hnin).
  destruct (mapM label_str (columns df)) as [names|] eqn:Hm; [|done]. simpl.
  assert (List.filter datetime_like names = []) as ->; [|by intros [= <-]].
  assert (∀ s, s ∈ names → LStr s ∈ columns df) as Hsub.
  { clear -Hm. revert names Hm.
    induction (columns df) as [|c cols IH]; intros names Hm.
    - injection Hm as <-. by intros s Hs%elem_of_nil.
    - simpl in Hm. destruct c as [s0|]; [|done]. simpl in Hm.
      destruct (mapM label_str cols) as [ns|]; [|done]. simpl in Hm.
      injection Hm as <-. intros s [->|Hs]%elem_of_cons; [left|].
      right. by apply (IH ns). }
  destruct (List.filter datetime_like names) as [|c0 rest] eqn:Hf; [done|].
  assert (In c0 (List.filter datetime_like names)) as Hin by (rewrite Hf; by left).
  apply filter_In in Hin as [Hin Hlike].
  apply datetime_like_spec in Hlike.
  destruct (Hnone c0 (Hsub c0 (proj2 (list_elem_of_In _ _) Hin))) as [? ?].
  by destruct Hlike.
Qed.

Lemma prepared_all_missing df :
  records (prepared df (replicate (length (records df)) VNaN)) = [].
Proof.
  unfold prepared, dropna, setitem. simpl.
  apply dropna_all_missing. rewrite resize_replicate.
  by apply Forall_replicate.
Qed.

(** C6. When the loaded frame has no column named 'datetime' and no
    column name containing "date" or "time" (whatever the case), the
    frame [get_surface_data] returns has no rows and
    [build_surface_figure] returns the blank figure. *)
Theorem no_timestamp_column_blank w df :
  wf w →
  data_cache w = None →
  figure_cache w = None →
  load_master (fetches w) = LoadFrame df →
  datetime ∉ columns df →
  (∀ s, LStr s ∈ columns df →
        ¬ contains "date" (lower s) ∧ ¬ contains "time" (lower s)) →
  (∃ l pc w' d,
     get w = (Returned (l, pc), w') ∧
     heap w' !! l = Some d ∧ records d = []) ∧
  result build w = Returned blank_figure.
Proof.
  intros Hwf Hc Hfc Hld Hnin Hnone.
  assert (records (prepared_result to_datetime (LoadFrame df)).1 = []) as Hrec.
  { rewrite (prepared_result_frame _ df eq_refl).
    destruct (resolve_datetime to_datetime df) as [cells|] eqn:Hres; [|done].
    rewrite (resolve_datetime_no_candidate df cells Hnin Hnone Hres).
    apply prepared_all_missing. }
  split.
  - destruct (get_surface_data_miss w Hc) as (l & w' & Hrun & Hh & _).
    rewrite Hld in Hrun, Hh. by eexists l, _, w', _.
  - unfold result.
    destruct (build_figure_miss w Hwf Hfc)
      as (l & pc & d & w' & -> & _ & _ & _ & _ & _ & _ & Hm).
    rewrite Hc, Hld in Hm. destruct Hm as [Hm _].
    rewrite <- Hm in Hrec. simpl in Hrec.
    unfold figure_of. rewrite (df_empty_no_records _ Hrec).
    by destruct pc.
Qed.

(** C4 (amended). Whenever the timestamp step of the preparation does not
    raise (as on every frame with distinct labels that has a 'datetime'
    column or only string labels), the price field follows the priority
    'standardized_price', then 'charge', then none; when the step raises,
    the fallback gives no price field whatever the columns are. *)
Theorem price_field_priority w df :
  data_cache w = None →
  load_master (fetches w) = LoadFrame df →
  ∃ l pc w',
    get w = (Returned (l, pc), w') ∧
    match resolve_datetime to_datetime df with
    | Some _ => price_priority df pc
    | None => pc = None
    end ∧
    (NoDup (columns df) →
     datetime ∈ columns df ∨ Forall is_str (columns df) →
     is_Some (resolve_datetime to_datetime df)).
Proof.
  intros Hc Hld.
  destruct (get_surface_data_miss w Hc) as (l & w' & Hrun & _).
  rewrite Hld, (prepared_result_frame _ df eq_refl) in Hrun.
  eexists l, _, w'. split; [exact Hrun|]. split.
  - destruct (resolve_datetime to_datetime df) as [cells|]; [|done]. simpl.
    unfold choose_price_col, price_priority. repeat split.
    + intros Hsp. by rewrite (bool_decide_eq_true_2 _ Hsp).
    + intros Hsp Hch. by rewrite (bool_decide_eq_false_2 _ Hsp),
        (bool_decide_eq_true_2 _ Hch).
    + intros Hsp Hch. by rewrite (bool_decide_eq_false_2 _ Hsp),
        (bool_decide_eq_false_2 _ Hch).
  - intros Hnd Hshape. by rewrite (resolve_datetime_spec df Hnd Hshape).
Qed.


(** ** The surface *)










End PageFacts.

(** * Runs on sample frames *)

Lemma wf_after_preparation : wf after_preparation.
Proof.
  apply (reachable_wf (always missing_price) keep_timestamps).
  apply reach_get, reach_fresh.
Qed.

Lemma wf_after_fallback : wf after_fallback.
Proof.
  apply (reachable_wf (fun _ => LoadRaises) keep_timestamps).
  apply reach_get, reach_fresh.
Qed.

(** The two records of the specification's example give a grid of two
    rows and one column. *)
Example two_records_grid :
  traces (result (build_surface_figure (always two_records)
                    keep_timestamps) fresh_process)
  = [ {| surf_z := [[10%Q]; [20%Q]]; surf_x := [1];
         surf_y := [0; 2]; surf_colorscale := "Electric" |} ].
Proof. by vm_compute. Qed.

(** With a record at hour 1 in month 2 the grid has the row, the gap in
    month 1 is interpolated, and month 2 is 0 above its only value and
    that value below it. *)
Example three_records_grid :
  traces (result (build_surface_figure (always three_records)
                    keep_timestamps) fresh_process)
  = [ {| surf_z := [[10%Q; 0%Q]; [(30 # 2)%Q; 7%Q]; [20%Q; 7%Q]];
         surf_x := [1; 2]; surf_y := [0; 1; 2];
         surf_colorscale := "Electric" |} ].
Proof. by vm_compute. Qed.

(** Rows count as equally spaced whatever their labels: with rows for
    the hours 0, 1 and 3 the gap at hour 1 of month 1 gets 25, the middle
    of 10 and 40 (the line through (0,10) and (3,40) would give 20). *)
Example uneven_hours_grid :
  traces (result (build_surface_figure (always uneven_hours)
                    keep_timestamps) fresh_process)
  = [ {| surf_z := [[10%Q; 0%Q]; [(50 # 2)%Q; 7%Q]; [40%Q; 7%Q]];
         surf_x := [1; 2]; surf_y := [0; 1; 3];
         surf_colorscale := "Electric" |} ].
Proof. by vm_compute. Qed.

(** ** The mean of a cell (C1) *)



(** ** Gaps (C2) *)


(** ** The fallback (C3) *)

(** A loader that raises, and one that returns something else than a
    frame: the fallback pair is returned and cached. *)
Example loader_raises_fallback :
  get_surface_data (fun _ => LoadRaises) keep_timestamps fresh_process
  = (Returned (O, None),
     {| heap := {[ O := empty_frame ]}; next_ref := 1; fetches := 1;
        data_cache := Some (O, None); figure_cache := None |}).
Proof. reflexivity. Qed.

Example loader_returns_other_fallback :
  result (get_surface_data (fun _ => LoadOther) keep_timestamps)
         fresh_process
  = Returned (O, None).
Proof. reflexivity. Qed.

(** ** The price field (C4) *)

(** C4, as stated, fails on [integer_label]: 'standardized_price' is a
    column, but the label 0 has no [lower], the preparation falls back
    and no price field is returned. *)
Lemma integer_label_no_price_field :
  ∃ l pc w',
    get_surface_data (always integer_label) keep_timestamps fresh_process
      = (Returned (l, pc), w') ∧
    LStr "standardized_price" ∈ columns integer_label ∧
    pc = None ∧
    ¬ price_priority integer_label pc.
Proof.
  do 3 eexists. split; [by vm_compute|].
  split; [compute_done|]. split; [done|].
  intros [Hsp _]. by specialize (Hsp ltac:(compute_done)).
Qed.

Lemma price_field_priority_witness :
  ∃ l pc w',
    get_surface_data (always start_time) keep_timestamps fresh_process
      = (Returned (l, pc), w') ∧
    match resolve_datetime keep_timestamps start_time with
    | Some _ => price_priority start_time pc
    | None => pc = None
    end ∧
    (NoDup (columns start_time) →
     datetime ∈ columns start_time ∨ Forall is_str (columns start_time) →
     is_Some (resolve_datetime keep_timestamps start_time)).
Proof.
  apply (price_field_priority (always start_time) keep_timestamps
           fresh_process start_time).
  - reflexivity.
  - reflexivity.
Defined.

(** ** The blank figure (C5) *)

Lemma build_surface_figure_blank_witness :
  build_surface_figure (fun _ => LoadRaises) keep_timestamps after_fallback
    = (Returned blank_figure, set_figure_cache blank_figure after_fallback) ∧
  result (build_surface_figure (always no_price) keep_timestamps)
         fresh_process
    = Returned blank_figure.
Proof.
  split.
  - apply (proj1 (build_surface_figure_blank (fun _ => LoadRaises)
                    keep_timestamps after_fallback
                    wf_after_fallback eq_refl) O None empty_frame).
    + reflexivity.
    + reflexivity.
    + by right.
  - apply (proj1 (proj2 (build_surface_figure_blank (always no_price)
                           keep_timestamps fresh_process
                           wf_fresh_process eq_refl)) no_price).
    + reflexivity.
    + reflexivity.
    + compute_done.
    + compute_done.
Defined.

(** ** No timestamp column (C6) *)

Lemma no_timestamp_column_blank_witness :
  (∃ l pc w' d,
     get_surface_data (always no_timestamp) keep_timestamps fresh_process
       = (Returned (l, pc), w') ∧
     heap w' !! l = Some d ∧ records d = []) ∧
  result (build_surface_figure (always no_timestamp) keep_timestamps)
         fresh_process
    = Returned blank_figure.
Proof.
  apply (no_timestamp_column_blank (always no_timestamp) keep_timestamps
           fresh_process no_timestamp).
  - exact wf_fresh_process.
  - reflexivity.
  - reflexivity.
  - reflexivity.
  - compute_done.
  - intros s Hs. rewrite <- !str_in_spec.
    apply elem_of_cons in Hs as [[= ->]|Hs]; [by vm_compute|].
    apply elem_of_cons in Hs as [[= ->]|Hs]; [by vm_compute|].
    by apply elem_of_nil in Hs.
Defined.

(** ** Memoisation (C7) *)

Lemma build_surface_figure_memoised_witness :
  let build := build_surface_figure changing_loader keep_timestamps in
  changing_loader 1 ≠ changing_loader 0 ∧
  result build (after build fresh_process) = result build fresh_process ∧
  fetches (after build (after build fresh_process))
    = fetches (after build fresh_process).
Proof.
  split.
  - intros H. apply (f_equal (fun ld => match ld with
                                         | LoadFrame df => length (records df)
                                         | _ => O
                                         end)) in H.
    vm_compute in H. discriminate H.
  - apply (build_surface_figure_memoised changing_loader keep_timestamps
             fresh_process wf_fresh_process O).
Defined.

(** ** Timestamp resolution (C8) *)



(** ** The three arrays (C9) *)


(** ** The cached frame (C10) *)

Lemma build_surface_figure_frame_witness :
  let build := build_surface_figure (always missing_price) keep_timestamps in
  data_cache (Nat.iter 3 (after build) after_preparation)
    = Some (1%nat, Some "standardized_price") ∧
  heap (Nat.iter 3 (after build) after_preparation) !! 1%nat
    = Some (prepared missing_price (kept missing_price)).
Proof.
  apply (proj1 (build_surface_figure_frame (always missing_price)
                  keep_timestamps after_preparation 1%nat
                  (Some "standardized_price")
                  (prepared missing_price (kept missing_price))
                  wf_after_preparation eq_refl eq_refl) 3%nat).
Defined.

(** * The process as a whole: one fetch, one frame, one figure *)

Section Process.
Variable load_master : nat -> loaded.
Variable to_datetime : list value -> list (option Timestamp).

Local Abbreviation get := (get_surface_data load_master to_datetime).
Local Abbreviation build := (build_surface_figure load_master to_datetime).
Local Abbreviation page := (layout load_master to_datetime).
Local Abbreviation data0 := (process_data load_master to_datetime).

(** A call of [get_surface_data] returns what its cache slot holds
    afterwards. *)
Lemma get_surface_data_cached w :
  ∃ c, get w = (Returned c, after get w) ∧ data_cache (after get w) = Some c.
Proof.
  destruct (data_cache w) as [c|] eqn:Hc.
  - exists c. unfold after.
    by rewrite (get_surface_data_hit load_master to_datetime w c Hc).
  - destruct (get_surface_data_miss load_master to_datetime w Hc)
      as (l & w' & Hrun & _ & Hdc & _).
    eexists. unfold after. rewrite Hrun. done.
Qed.

(** What every state of a process satisfies: nothing is fetched or built
    before the preparation result is cached; once it is, one fetch has
    been made, and the cached frame, price field and figure are those of
    the loader's first answer. *)
Lemma reachable_inv w :
  reachable load_master to_datetime w →
  (data_cache w = None → fetches w = 0%nat ∧ figure_cache w = None) ∧
  (∀ l pc, data_cache w = Some (l, pc) →
     fetches w = 1%nat ∧ heap w !! l = Some data0.1 ∧ pc = data0.2) ∧
  (∀ f, figure_cache w = Some f → figure_of data0.1 data0.2 = Some f).
Proof.
  induction 1 as [|w Hr IH|w Hr IH].
  - done.
  - destruct (data_cache w) as [c|] eqn:Hc.
    + unfold after.
      rewrite (get_surface_data_hit load_master to_datetime w c Hc).
      simpl. by rewrite Hc.
    + destruct (get_surface_data_miss load_master to_datetime w Hc)
        as (l & w' & Hrun & Hh & Hdc & _ & _ & Hf & Hfc & _).
      unfold after. rewrite Hrun. simpl.
      destruct IH as (IH1 & _ & _). destruct (IH1 eq_refl) as [Hf0 Hfc0].
      rewrite Hf0 in Hrun, Hh, Hdc. fold data0 in Hh, Hdc.
      split; [by rewrite Hdc|]. split.
      * intros l' pc'. rewrite Hdc. intros [= <- <-]. by rewrite Hf, Hf0.
      * intros f. by rewrite Hfc, Hfc0.
  - pose proof (reachable_wf load_master to_datetime w Hr) as Hwf.
    destruct (figure_cache w) as [f|] eqn:Hfc.
    + unfold after.
      rewrite (build_figure_hit load_master to_datetime w f Hfc).
      simpl. by rewrite Hfc.
    + destruct (build_figure_miss load_master to_datetime w Hwf Hfc)
        as (l & pc & df & w' & Hrun & Hdc & Hh & _ & Hfc' & _ & Hpres & Hm).
      unfold after. rewrite Hrun. simpl.
      destruct IH as (IH1 & IH2 & _).
      assert (fetches w' = 1%nat ∧ df = data0.1 ∧ pc = data0.2)
        as (Hf1 & -> & ->).
      { destruct (data_cache w) as [c|] eqn:Hc.
        - destruct Hm as [-> Hf]. destruct (IH2 l pc eq_refl) as (? & Hl & ?).
          rewrite Hpres, Hl in Hh by by apply (Hwf l pc).
          split; [congruence|]. split; congruence.
        - destruct Hm as [Heq Hf]. destruct (IH1 eq_refl) as [Hf0 _].
          rewrite Hf0 in Heq, Hf. fold data0 in Heq.
          split; [done|]. by rewrite <- Heq. }
      split; [by rewrite Hdc|]. split.
      * intros l' pc'. rewrite Hdc. by intros [= <- <-].
      * intros f. rewrite Hfc'. done.
Qed.

(** In every state of a process, a call of the build gives the figure of
    the loader's first answer. *)
Lemma build_result_reachable w :
  reachable load_master to_datetime w →
  result build w = outcome_of (figure_of data0.1 data0.2).
Proof.
  intros Hr.
  pose proof (reachable_wf load_master to_datetime w Hr) as Hwf.
  destruct (reachable_inv w Hr) as (IH1 & IH2 & IH3).
  destruct (figure_cache w) as [f|] eqn:Hfc.
  - unfold result.
    rewrite (build_figure_hit load_master to_datetime w f Hfc).
    by rewrite (IH3 f eq_refl).
  - destruct (build_figure_miss load_master to_datetime w Hwf Hfc)
      as (l & pc & df & w' & Hrun & _ & Hh & _ & _ & _ & Hpres & Hm).
    unfold result. rewrite Hrun. simpl.
    destruct (data_cache w) as [c|] eqn:Hc.
    + destruct Hm as [-> _]. destruct (IH2 l pc eq_refl) as (_ & Hl & ->).
      rewrite Hpres, Hl in Hh by by apply (Hwf l (data0.2)).
      by injection Hh as <-.
    + destruct Hm as [Heq _]. destruct (IH1 eq_refl) as [Hf0 _].
      rewrite Hf0 in Heq. fold data0 in Heq. by rewrite <- Heq.
Qed.

(** X1. Whatever calls of the two functions a process has made, in
    whatever order, [load_master] has been called at most once: not at
    all while the data cache is empty, once from then on; a call of either
    function leaves the count at one. *)
Theorem load_master_called_once w :
  reachable load_master to_datetime w →
  (fetches w ≤ 1)%nat ∧
  (fetches w = 0%nat ↔ data_cache w = None) ∧
  fetches (after get w) = 1%nat ∧
  fetches (after build w) = 1%nat.
Proof.
  intros Hr.
  assert (∀ w0, reachable load_master to_datetime w0 →
                is_Some (data_cache w0) → fetches w0 = 1%nat) as Hone.
  { intros w0 Hr0 [[l pc] Hc].
    by destruct (proj1 (proj2 (reachable_inv w0 Hr0)) l pc Hc). }
  destruct (reachable_inv w Hr) as (IH1 & IH2 & _).
  split; [|split; [|split]].
  - destruct (data_cache w) as [[l pc]|] eqn:Hc.
    + destruct (IH2 l pc eq_refl) as [-> _]. lia.
    + destruct (IH1 eq_refl) as [-> _]. lia.
  - split.
    + intros Hf. destruct (data_cache w) as [[l pc]|] eqn:Hc; [|done].
      destruct (IH2 l pc eq_refl) as [? _]. lia.
    + intros Hc. by destruct (IH1 Hc).
  - apply Hone; [by constructor|].
    destruct (get_surface_data_cached w) as (c & _ & ->). done.
  - apply Hone; [by constructor|].
    pose proof (reachable_wf load_master to_datetime w Hr) as Hwf.
    destruct (figure_cache w) as [f|] eqn:Hfc.
    + unfold after.
      rewrite (build_figure_hit load_master to_datetime w f Hfc). simpl.
      destruct (data_cache w) as [c|] eqn:Hc; [done|].
      destruct (IH1 eq_refl) as [_ Hn]. congruence.
    + destruct (build_figure_miss load_master to_datetime w Hwf Hfc)
        as (l & pc & df & w' & Hrun & Hdc & _).
      unfold after. rewrite Hrun. simpl. by rewrite Hdc.
Qed.

(** X2. In every state of a process, [get_surface_data] returns the
    frame and the price field prepared from the loader's first answer;
    what the loader would answer later is never seen. *)
Theorem get_surface_data_first_answer w :
  reachable load_master to_datetime w →
  ∃ l, result get w = Returned (l, data0.2) ∧
       heap (after get w) !! l = Some data0.1.
Proof.
  intros Hr. destruct (get_surface_data_cached w) as ([l pc] & Hrun & Hc).
  assert (reachable load_master to_datetime (after get w)) as Hr'
    by by constructor.
  destruct (proj1 (proj2 (reachable_inv _ Hr')) l pc Hc) as (_ & Hl & ->).
  exists l. unfold result. by rewrite Hrun.
Qed.

(** X3. In every state of a process, the outcome of
    [build_surface_figure] is the figure of the frame and price field
    prepared from the loader's first answer: the guard's blank figure, the
    surface, or the exception of the pivot steps. *)
Theorem build_surface_figure_first_answer w :
  reachable load_master to_datetime w →
  result build w = outcome_of (figure_of data0.1 data0.2) ∧
  (∀ f, figure_cache w = Some f → figure_of data0.1 data0.2 = Some f).
Proof.
  intros Hr. split; [by apply build_result_reachable|].
  apply (reachable_inv w Hr).
Qed.



(** X6. The frame the loader returned is changed in place and is not the
    frame that is returned: after a successful preparation the loader's
    object holds the 'datetime' column with all its rows, and the result
    is a second object, without the rows that have no timestamp. When the
    timestamp step raises, the loader's object is left as it was and the
    result is a new empty frame. *)
Theorem loaded_frame_mutated_in_place w df :
  data_cache w = None →
  load_master (fetches w) = LoadFrame df →
  ∃ pc,
    result get w = Returned (S (next_ref w), pc) ∧
    match resolve_datetime to_datetime df with
    | Some cells =>
        heap (after get w) !! next_ref w = Some (setitem df datetime cells) ∧
        heap (after get w) !! S (next_ref w) = Some (prepared df cells) ∧
        length (records (setitem df datetime cells)) = length (records df)
    | None =>
        heap (after get w) !! next_ref w = Some df ∧
        heap (after get w) !! S (next_ref w) = Some empty_frame
    end.
Proof.
  intros Hc Hld.
  unfold after, result, get_surface_data, lru_cache, try_except, prepare,
    fallback, call_load_master.
  rewrite Hc. run_step. rewrite Hld. simpl. rewrite lookup_insert_eq. simpl.
  destruct (resolve_datetime to_datetime df) as [cells|]; simpl.
  - repeat (rewrite lookup_insert_eq; simpl).
    eexists. split; [done|].
    rewrite lookup_insert_ne by lia. rewrite lookup_insert_eq.
    split; [done|]. split; [done|].
    rewrite length_zip_with, length_resize. lia.
  - eexists. split; [done|].
    rewrite lookup_insert_eq. rewrite lookup_insert_ne by lia.
    by rewrite lookup_insert_eq.
Qed.

(** X7. [layout()] returns the page tree around the figure that
    [build_surface_figure] returns in that state, raises when it raises,
    and leaves the state it leaves; the tree has one graph, 'price-surface'.
    Every later call returns the same tree. *)
Theorem layout_shows_built_figure w :
  wf w →
  after page w = after build w ∧
  match result build w with
  | Returned f =>
      ∃ tree, result page w = Returned tree ∧
              figures tree = [f] ∧ graph_ids tree = ["price-surface"]
  | Raised => result page w = Raised
  end ∧
  ∀ n, result page (Nat.iter n (after page) (after page w))
       = result page w.
Proof.
  intros Hwf.
  assert (∀ w0, after page w0 = after build w0) as Hafter.
  { intros w0. unfold after, layout. run_step.
    by destruct (build_surface_figure _ _ w0) as [[f|] w']. }
  assert (∀ w0 w1, result build w0 = result build w1 →
                   result page w0 = result page w1) as Hres.
  { intros w0 w1. unfold result, layout. run_step.
    destruct (build_surface_figure _ _ w0) as [[f0|] w0'],
      (build_surface_figure _ _ w1) as [[f1|] w1']; simpl; congruence. }
  split; [done|]. split.
  - unfold result, layout. run_step.
    destruct (build_surface_figure _ _ w) as [[f|] w']; simpl; [|done].
    by eexists.
  - intros n. apply Hres.
    assert (Nat.iter n (after page) (after page w)
            = Nat.iter n (after build) (after build w)) as ->.
    { rewrite Hafter. induction n as [|n IH]; [done|].
      simpl. by rewrite IH, Hafter. }
    rewrite Nat.iter_swap.
    induction n as [|n IHn];
      [by apply (build_figure_again load_master to_datetime)|].
    destruct (build_figure_again load_master to_datetime
                (Nat.iter (S n) (after build) w)
                (build_figure_wf_iter load_master to_datetime w (S n) Hwf))
      as [Hr _].
    by rewrite Hr.
Qed.

End Process.

(** * The grid: size, range of the values, ends of a column *)


Lemma sorted_lookup_lt (l : list Z) i j a b :
  StronglySorted Z.lt l →
  l !! i = Some a → l !! j = Some b → (i < j)%nat → a < b.
Proof.
  intros Hs. revert i j. induction Hs as [|x l Hs IH Hx]; intros i j Hi Hj Hij.
  - done.
  - destruct j as [|j]; [lia|]. simpl in Hj. destruct i as [|i].
    + injection Hi as <-. rewrite Forall_forall in Hx.
      by apply Hx, (list_elem_of_lookup_2 _ j).
    + simpl in Hi. apply (IH i j); [done|done|lia].
Qed.

Lemma sorted_lookup_le (l : list Z) i j a b :
  StronglySorted Z.lt l →
  l !! i = Some a → l !! j = Some b → a ≤ b → (i ≤ j)%nat.
Proof.
  intros Hs Hi Hj Hab. destruct (decide (i ≤ j)%nat) as [|Hn]; [done|].
  assert (b < a) by (apply (sorted_lookup_lt l j i); [done..|lia]). lia.
Qed.

(** Above the first known value of a column nothing is filled in. *)
Lemma interpolate_from_leading l i :
  (i < length l)%nat →
  (∀ k, (k ≤ i)%nat → l !! k = Some None) →
  interpolate_from None l !! i = Some None.
Proof.
  revert i. induction l as [|c l IH]; intros i Hi Hl; [simpl in Hi; lia|].
  pose proof (Hl O ltac:(lia)) as H0. injection H0 as ->. simpl.
  destruct i as [|i]; [done|]. simpl. apply IH; [simpl in Hi; lia|].
  intros k Hk. apply (Hl (S k)). lia.
Qed.

Lemma fill_column_leading l i :
  (i < length l)%nat →
  (∀ k, (k ≤ i)%nat → l !! k = Some None) →
  fill_column l !! i = Some 0%Q.
Proof.
  intros Hi Hl. unfold fill_column, fillna0, interpolate_column.
  by rewrite list_lookup_fmap, (interpolate_from_leading l i Hi Hl).
Qed.

Lemma next_valid_all_missing l :
  Forall (fun c => c = None) l → next_valid l = None.
Proof. induction 1 as [|c l -> _ IH]; [done|]. simpl. by rewrite IH. Qed.

(** Below the last known value of a column that value is repeated. *)
Lemma interpolate_from_tail l a d :
  Forall (fun c => c = None) l →
  interpolate_from (Some (a, d)) l = replicate (length l) (Some a).
Proof.
  intros Hl. revert d. induction Hl as [|c l -> Hl IH]; intros d; [done|].
  simpl. rewrite (next_valid_all_missing l Hl). f_equal. apply IH.
Qed.

Lemma interpolate_from_trailing prev l i0 i a :
  l !! i0 = Some (Some a) →
  (∀ k, (i0 < k)%nat → (k < length l)%nat → l !! k = Some None) →
  (i0 < i)%nat → (i < length l)%nat →
  interpolate_from prev l !! i = Some (Some a).
Proof.
  revert prev i0 i. induction l as [|c l IH]; intros prev i0 i Hi0 Hl Hlt Hi;
    [done|].
  destruct i as [|i]; [lia|]. simpl in Hi.
  destruct i0 as [|i0].
  - injection Hi0 as ->. simpl. rewrite interpolate_from_tail.
    + apply lookup_replicate_2. lia.
    + apply Forall_forall. intros c Hc.
      apply list_elem_of_lookup_1 in Hc as [k Hk].
      pose proof (lookup_lt_Some _ _ _ Hk) as Hklt.
      specialize (Hl (S k) ltac:(lia) ltac:(simpl; lia)). simpl in Hl.
      congruence.
  - simpl in Hi0.
    assert (∀ prev', interpolate_from prev' l !! i = Some (Some a)) as Hgo.
    { intros prev'. apply (IH prev' i0 i); [done| |lia|lia].
      intros k Hk Hkl. apply (Hl (S k)); simpl; lia. }
    destruct c as [v|]; simpl; apply Hgo.
Qed.

Lemma fill_column_trailing l i0 i a :
  l !! i0 = Some (Some a) →
  (∀ k, (i0 < k)%nat → (k < length l)%nat → l !! k = Some None) →
  (i0 < i)%nat → (i < length l)%nat →
  fill_column l !! i = Some a.
Proof.
  intros Hi0 Hl Hlt Hi. unfold fill_column, fillna0, interpolate_column.
  by rewrite list_lookup_fmap,
    (interpolate_from_trailing None l i0 i a Hi0 Hl Hlt Hi).
Qed.

(** The mean of numbers between two bounds lies between them. *)
Lemma Qsum_within (qs : list Q) lo hi :
  Forall (fun q => lo <= q <= hi)%Q qs →
  (inject_Z (Z.of_nat (length qs)) * lo <= Qsum qs
   <= inject_Z (Z.of_nat (length qs)) * hi)%Q.
Proof.
  induction 1 as [|q qs Hq _ IH].
  - change (0 * lo <= 0 <= 0 * hi)%Q. split; lra.
  - change (Qsum (q :: qs)) with (q + Qsum qs)%Q.
    change (length (q :: qs)) with (S (length qs)).
    rewrite Nat2Z.inj_succ, <- Z.add_1_r, inject_Z_plus.
    change (inject_Z 1) with 1%Q.
    split; lra.
Qed.

Lemma mean_within (qs : list Q) lo hi :
  qs ≠ [] →
  Forall (fun q => lo <= q <= hi)%Q qs →
  (lo <= mean qs <= hi)%Q.
Proof.
  intros Hne Hqs. pose proof (Qsum_within qs lo hi Hqs) as [Hlo Hhi].
  assert (0 < inject_Z (Z.of_nat (length qs)))%Q as Hpos.
  { change 0%Q with (inject_Z 0). rewrite <- Zlt_Qlt.
    destruct qs; [done|]. simpl. lia. }
  unfold mean. split.
  - apply Qle_shift_div_l; [done|]. lra.
  - apply Qle_shift_div_r; [done|]. lra.
Qed.

Lemma next_valid_elem l e b : next_valid l = Some (e, b) → Some b ∈ l.
Proof.
  revert e. induction l as [|[v|] l IH]; intros e; simpl; [done| |].
  - intros [= _ ->]. left.
  - destruct (next_valid l) as [[n v]|]; simpl; [|done].
    intros [= _ ->]. right. by eapply IH.
Qed.

Lemma step_fraction (d e : nat) :
  (0 <= inject_Z (Z.of_nat d) / inject_Z (Z.of_nat (d + e + 1)) <= 1)%Q.
Proof.
  assert (0 < inject_Z (Z.of_nat (d + e + 1)))%Q as Hpos.
  { change 0%Q with (inject_Z 0). rewrite <- Zlt_Qlt. lia. }
  split.
  - apply Qle_shift_div_l; [done|]. rewrite Qmult_0_l.
    change 0%Q with (inject_Z 0). rewrite <- Zle_Qle. lia.
  - apply Qle_shift_div_r; [done|]. rewrite Qmult_1_l.
    rewrite <- Zle_Qle. lia.
Qed.

(** Interpolation never leaves the range of the known values. *)
Lemma interpolate_from_within lo hi prev l v :
  (∀ a d, prev = Some (a, d) → (lo <= a <= hi)%Q) →
  (∀ q, Some q ∈ l → (lo <= q <= hi)%Q) →
  Some v ∈ interpolate_from prev l → (lo <= v <= hi)%Q.
Proof.
  revert prev. induction l as [|c l IH]; intros prev Hprev Hl; simpl.
  - by intros ?%elem_of_nil.
  - assert (∀ q, Some q ∈ l → (lo <= q <= hi)%Q) as Hl'
      by (intros q Hq; apply Hl; by right).
    destruct c as [q|].
    + intros [[= ->]|Hin]%elem_of_cons; [apply Hl; left|].
      apply (IH (Some (q, 1%nat))); [|done..].
      intros a d [= <- _]. apply Hl. left.
    + intros [Heq|Hin]%elem_of_cons.
      * destruct prev as [[a d]|]; [|done].
        pose proof (Hprev a d eq_refl) as Ha.
        destruct (next_valid l) as [[e b]|] eqn:Hnv.
        -- injection Heq as ->.
           pose proof (Hl' b (next_valid_elem l e b Hnv)) as Hb.
           pose proof (step_fraction d e) as Ht.
           set (t := (inject_Z (Z.of_nat d)
                      / inject_Z (Z.of_nat (d + e + 1)))%Q) in *.
           split; nra.
        -- by injection Heq as ->.
      * apply (IH ((fun '(a, d) => (a, S d)) <$> prev)); [|done..].
        intros a d Heq. destruct prev as [[a' d']|]; [|done].
        injection Heq as <- _. by apply (Hprev a' d').
Qed.

Lemma fill_column_within lo hi l v :
  (∀ q, Some q ∈ l → (lo <= q <= hi)%Q) →
  v ∈ fill_column l → v = 0%Q ∨ (lo <= v <= hi)%Q.
Proof.
  intros Hl. unfold fill_column, fillna0, interpolate_column.
  intros ([q|] & -> & Hin)%list_elem_of_fmap; simpl; [|by left].
  right. by apply (interpolate_from_within lo hi None l q).
Qed.

Lemma values_elem n data row v :
  row ∈ values n data → v ∈ row →
  v = 0%Q ∨ ∃ col, col ∈ data ∧ v ∈ col.
Proof.
  unfold values. intros (i & -> & _)%list_elem_of_fmap.
  intros (col & -> & Hcol)%list_elem_of_fmap.
  destruct (col !! i) as [q|] eqn:Hq; simpl; [|by left].
  right. exists col. split; [done|]. by eapply list_elem_of_lookup_2.
Qed.

(** A mean of the pivot lies in the range of the numbers it was read
    from. *)
Lemma agged_within lo hi rows k v :
  (∀ k0 q, (k0, Some q) ∈ rows → (lo <= q <= hi)%Q) →
  agged_map rows !! k = Some v → (lo <= v <= hi)%Q.
Proof.
  intros Hrows [_ Hv]%agged_map_lookup. unfold nanmean in Hv.
  destruct (omap id (group_values rows k)) as [|q qs] eqn:Hqs; [done|].
  injection Hv as <-. apply mean_within; [done|].
  rewrite <- Hqs. apply Forall_forall. intros x Hx.
  apply list_elem_of_omap in Hx as ([y|] & Hy & [= ->]).
  apply group_values_elem in Hy. by apply (Hrows k).
Qed.

Lemma surface_trace_within lo hi rows row v :
  (∀ k0 q, (k0, Some q) ∈ rows → (lo <= q <= hi)%Q) →
  row ∈ surf_z (surface_trace (pivot_of_rows rows)) → v ∈ row →
  v = 0%Q ∨ (lo <= v <= hi)%Q.
Proof.
  intros Hrows Hrow Hv. unfold surface_trace in Hrow. simpl in Hrow.
  destruct (values_elem _ _ row v Hrow Hv) as [->|(col & Hcol & Hin)];
    [by left|].
  apply list_elem_of_fmap in Hcol as (c0 & -> & Hc0).
  apply list_elem_of_fmap in Hc0 as (m & -> & _).
  eapply (fill_column_within lo hi); [|done].
  intros q (h & Hq & _)%list_elem_of_fmap.
  by apply (agged_within lo hi rows (h, m)).
Qed.

(** ** The order of the rows *)









(** ** The prepared frame against the loaded one *)

Lemma prepared_columns df cells :
  columns (prepared df cells)
  = if bool_decide (datetime ∈ columns df) then columns df
    else columns df ++ [datetime].
Proof. done. Qed.

Lemma prepared_records df cells :
  records (prepared df cells)
  = filter (fun r => isna (cell datetime r) = false)
      (zip_with (fun r v => <[datetime := v]> r) (records df)
         (resize (length (records df)) VNaN cells)).
Proof. done. Qed.

(** A record of the prepared frame is a loaded record with a timestamp
    cell that is not missing. *)
Lemma prepared_record_origin df cells r' :
  r' ∈ records (prepared df cells) →
  ∃ r v, r ∈ records df ∧ r' = <[datetime := v]> r ∧ isna v = false ∧
         v ∈ resize (length (records df)) VNaN cells.
Proof.
  rewrite prepared_records.
  intros [Hna (r & v & -> & Hr & Hv)%elem_of_zip_with]%list_elem_of_filter.
  rewrite cell_insert_eq in Hna. by exists r, v.
Qed.

Lemma delete_zip_with_insert (rs : list (gmap label value)) cs :
  length cs = length rs →
  delete datetime <$> zip_with (fun r v => <[datetime := v]> r) rs cs
  = delete datetime <$> rs.
Proof.
  revert cs. induction rs as [|r rs IH]; intros [|c cs] Hlen; try done.
  simpl in Hlen. simpl. rewrite delete_insert_eq, IH; [done|lia].
Qed.

Lemma filter_zip_with_timestamps (rs : list (gmap label value)) cs :
  length cs = length rs →
  length (filter (fun r => isna (cell datetime r) = false)
            (zip_with (fun r v => <[datetime := v]> r) rs cs))
  = length (filter (fun c => isna c = false) cs).
Proof.
  revert cs. induction rs as [|r rs IH]; intros [|c cs] Hlen; try done.
  simpl in Hlen. simpl. rewrite !filter_cons, cell_insert_eq.
  destruct (decide (isna c = false)); simpl; rewrite IH; lia.
Qed.

Lemma choose_price_col_cases cols :
  choose_price_col cols = None ∨
  choose_price_col cols = Some "standardized_price" ∨
  choose_price_col cols = Some "charge".
Proof.
  unfold choose_price_col.
  destruct (bool_decide _); [by right; left|].
  destruct (bool_decide _); [by right; right|by left].
Qed.


(** What the figure of a frame and a price field can be. *)
Lemma figure_of_cases df pc f :
  pc = None ∨ pc = Some "standardized_price" ∨ pc = Some "charge" →
  figure_of df pc = Some f →
  (f = blank_figure ∧ (df_empty df = true ∨ pc = None)) ∨
  (∃ p rows,
     pc = Some p ∧ df_empty df = false ∧
     mapM (observe (LStr p)) (records df) = Some rows ∧
     f = surface_figure (pivot_of_rows rows)).
Proof.
  intros Hpc. unfold figure_of. destruct pc as [p|].
  - destruct (df_empty df) eqn:He.
    + intros [= <-]. left. split; [done|by left].
    + intros Hs. right.
      assert (LStr p ≠ LStr "hour" ∧ LStr p ≠ LStr "month") as [Hh Hm].
      { destruct Hpc as [?|[[= ->]|[= ->]]]; done. }
      destruct (surface_of_rows df p f Hh Hm Hs) as (rows & Hrows & ->).
      by exists p, rows.
  - intros [= <-]. left. split; [done|by right].
Qed.

Lemma has_price_rows df pc rows h m :
  mapM (observe pc) (records df) = Some rows →
  has_price df pc h m ↔ is_Some (agged_map rows !! (h, m)).
Proof. intros Hrows. symmetry. by apply priced_group. Qed.


Lemma filter_notna_nil (cs : list value) :
  filter (fun c => isna c = false) cs = [] ↔
  Forall (fun c => isna c = true) cs.
Proof.
  induction cs as [|c cs IH]; [done|]. rewrite filter_cons, Forall_cons.
  destruct (decide (isna c = false)) as [Hc|Hc].
  - split; [done|]. intros [? _]. congruence.
  - rewrite IH. split; [|by intros [_ ?]].
    intros ?. split; [|done]. by destruct (isna c).
Qed.

(** The prepared frame has no row exactly when no timestamp parsed. *)
Lemma prepared_no_records df cells :
  records (prepared df cells) = [] ↔
  Forall (fun c => isna c = true) (resize (length (records df)) VNaN cells).
Proof.
  rewrite <- filter_notna_nil, <- !length_zero_iff_nil, prepared_records.
  by rewrite filter_zip_with_timestamps by by rewrite length_resize.
Qed.

Lemma prepared_empty df cells :
  df_empty (prepared df cells) = true ↔ records (prepared df cells) = [].
Proof.
  split; [|apply df_empty_no_records].
  unfold df_empty. rewrite prepared_columns.
  destruct (records (prepared df cells)); [done|].
  destruct (bool_decide_reflect (datetime ∈ columns df)) as [Hin|_].
  - destruct (columns df); [by apply elem_of_nil in Hin|done].
  - by destruct (columns df).
Qed.



Section Grid.
Variable load_master : nat -> loaded.
Variable to_datetime : list value -> list (option Timestamp).

Local Abbreviation get := (get_surface_data load_master to_datetime).
Local Abbreviation build := (build_surface_figure load_master to_datetime).
Local Abbreviation data0 := (process_data load_master to_datetime).

(** The timestamp step assigns timestamps and missing values only. *)
Lemma resolve_datetime_cells df cells :
  resolve_datetime to_datetime df = Some cells →
  Forall (fun c => c = VNaN ∨ ∃ t, c = VTime t) cells.
Proof.
  assert (∀ s, Forall (fun c => c = VNaN ∨ ∃ t, c = VTime t)
                 (of_timestamp <$> to_datetime s)) as Hts.
  { intros s. apply Forall_fmap, Forall_forall.
    intros [t|] _; simpl; [right; by exists t|by left]. }
  unfold resolve_datetime. destruct (bool_decide _).
  - destruct (series_of _) as [s|]; simpl; [|done]. intros [= <-]. apply Hts.
  - destruct (mapM label_str _) as [names|]; simpl; [|done].
    destruct (List.filter datetime_like names) as [|c0 rest].
    + intros [= <-]. apply Forall_replicate. by left.
    + destruct (series_of _) as [s|]; simpl; [|done].
      intros [= <-]. apply Hts.
Qed.

Lemma process_data_price :
  data0.2 = None ∨ data0.2 = Some "standardized_price" ∨
  data0.2 = Some "charge".
Proof.
  unfold process_data, prepared_result.
  destruct (load_master 0%nat) as [df| |]; [|by left..].
  destruct (resolve_datetime to_datetime df) as [cells|]; [|by left].
  apply choose_price_col_cases.
Qed.

(** What the build returns in a process: the blank figure of the guard,
    or the surface of the rows observed in the prepared frame. *)
Lemma built_figure_cases w f :
  reachable load_master to_datetime w →
  result build w = Returned f →
  (f = blank_figure ∧ (df_empty data0.1 = true ∨ data0.2 = None)) ∨
  (∃ p rows,
     data0.2 = Some p ∧ df_empty data0.1 = false ∧
     mapM (observe (LStr p)) (records data0.1) = Some rows ∧
     f = surface_figure (pivot_of_rows rows)).
Proof.
  intros Hr Hres.
  rewrite (build_result_reachable load_master to_datetime w Hr) in Hres.
  destruct (figure_of data0.1 data0.2) as [f'|] eqn:Hf; [|done].
  injection Hres as ->.
  by apply (figure_of_cases _ _ f process_data_price).
Qed.

(** X8. A successful preparation keeps the loaded columns, with
    'datetime' appended when it was not among them; every row it keeps
    has a timestamp; the rows are loaded rows, in their order, unchanged
    outside the 'datetime' cell; and there is one row for each timestamp
    that parsed. *)
Theorem prepared_frame_rows w df cells :
  data_cache w = None →
  load_master (fetches w) = LoadFrame df →
  resolve_datetime to_datetime df = Some cells →
  ∃ l pc d,
    result get w = Returned (l, pc) ∧
    heap (after get w) !! l = Some d ∧
    columns d = (if bool_decide (datetime ∈ columns df) then columns df
                 else columns df ++ [datetime]) ∧
    Forall (fun r => ∃ t, cell datetime r = VTime t) (records d) ∧
    (delete datetime <$> records d)
      `sublist_of` (delete datetime <$> records df) ∧
    length (records d)
    = length (filter (fun c => isna c = false)
                (resize (length (records df)) VNaN cells)).
Proof.
  intros Hc Hld Hres.
  destruct (get_surface_data_miss load_master to_datetime w Hc)
    as (l & w' & Hrun & Hh & _).
  rewrite (prepared_result_frame to_datetime _ df Hld), Hres in Hrun, Hh.
  cbn [fst snd] in Hrun, Hh.
  exists l, (choose_price_col (columns df)), (prepared df cells).
  unfold result, after. rewrite Hrun. cbn [fst snd].
  split; [done|]. split; [done|]. split; [done|].
  pose proof (resolve_datetime_cells df cells Hres) as Hcells.
  split; [|split].
  - apply Forall_forall.
    intros r' (r & v & _ & -> & Hna & Hv)%prepared_record_origin.
    rewrite cell_insert_eq.
    assert (v = VNaN ∨ ∃ t, v = VTime t) as [->|Ht]; [|done..].
    clear Hna. revert v Hv. apply Forall_forall, Forall_resize; [by left|done].
  - rewrite prepared_records.
    trans (delete datetime <$>
             zip_with (fun r v => <[datetime := v]> r) (records df)
               (resize (length (records df)) VNaN cells)).
    + apply fmap_sublist, sublist_filter.
    + by rewrite delete_zip_with_insert by by rewrite length_resize.
  - rewrite prepared_records. apply filter_zip_with_timestamps.
    by rewrite length_resize.
Qed.


(** X10. A figure the build returns is the blank figure exactly in the
    guard's two cases (empty frame, no price field); otherwise it has one
    trace, a surface with the colour scale 'Electric', under the title of
    the page. *)
Theorem figure_blank_or_single_surface w f :
  reachable load_master to_datetime w →
  result build w = Returned f →
  (f = blank_figure ∧ fig_data f = [] ∧
   (df_empty data0.1 = true ∨ data0.2 = None)) ∨
  (f ≠ blank_figure ∧ df_empty data0.1 = false ∧ is_Some data0.2 ∧
   ∃ s, fig_data f = [s] ∧ surf_colorscale s = "Electric" ∧
        title_text (fig_layout f) = Some "Hourly Price Terrain (Hologram)").
Proof.
  intros Hr Hres.
  destruct (built_figure_cases w f Hr Hres)
    as [[-> Hg]|(p & rows & Hp & He & _ & ->)].
  - by left.
  - right. rewrite Hp. split; [done|]. split; [done|]. split; [done|].
    by eexists.
Qed.


(** X12. With prices as exact numbers, no value of the grid lies outside
    the range of the prices of the loaded table, the 0 of the final fill
    apart: means and straight-line fills stay between the numbers they
    are made of. *)
Theorem surface_values_within_prices w df lo hi f :
  reachable load_master to_datetime w →
  load_master 0%nat = LoadFrame df →
  (∀ pc, choose_price_col (columns df) = Some pc →
         prices_within lo hi df (LStr pc)) →
  result build w = Returned f →
  ∀ s row v, s ∈ fig_data f → row ∈ surf_z s → v ∈ row →
             v = 0%Q ∨ (lo <= v <= hi)%Q.
Proof.
  intros Hr Hld Hin Hres s row v Hs Hrow Hv.
  destruct (built_figure_cases w f Hr Hres)
    as [[-> _]|(p & rows & Hp & _ & Hrows & ->)];
    [by apply elem_of_nil in Hs|].
  apply list_elem_of_singleton in Hs as ->.
  apply (surface_trace_within lo hi rows row v); [|done..].
  intros k q Hk.
  destruct (proj1 (observed_rows _ _ _ (k, Some q) Hrows) Hk)
    as (r' & Hr' & Hobs).
  destruct k as [h m].
  apply observe_Some in Hobs as (t & _ & _ & _ & Hq).
  revert Hp Hr' Hq. unfold process_data.
  rewrite (prepared_result_frame to_datetime _ df Hld).
  destruct (resolve_datetime to_datetime df) as [cells|]; simpl; [|done].
  intros Hp (r & c & Hrin & -> & _)%prepared_record_origin.
  assert (LStr p ≠ datetime) as Hne.
  { destruct (choose_price_col_cases (columns df)) as [?|[?|?]];
      [congruence|..]; intros [= ->]; congruence. }
  rewrite cell_insert_ne by done. intros Hq.
  by apply (Hin p Hp r q).
Qed.

(** X13. In a month column, a cell above the first hour that has a
    price is not filled by the interpolation and shows the 0 of the final
    fill. *)
Theorem leading_gap_zero w f s pc h m :
  reachable load_master to_datetime w →
  result build w = Returned f →
  data0.2 = Some pc →
  s ∈ fig_data f →
  h ∈ surf_y s → m ∈ surf_x s →
  (∀ h', h' ≤ h → ¬ has_price data0.1 (LStr pc) h' m) →
  surface_at s h m = Some 0%Q.
Proof.
  intros Hr Hres Hpc Hs Hh Hm Hnone.
  destruct (built_figure_cases w f Hr Hres)
    as [[-> _]|(p & rows & Hp & _ & Hrows & ->)];
    [by apply elem_of_nil in Hs|].
  apply list_elem_of_singleton in Hs as ->.
  assert (p = pc) as -> by congruence.
  change (h ∈ pv_index (pivot_of_rows rows)) in Hh.
  change (m ∈ pv_columns (pivot_of_rows rows)) in Hm.
  apply list_elem_of_lookup_1 in Hh as [i Hi].
  apply list_elem_of_lookup_1 in Hm as [j Hj].
  rewrite (surface_trace_cell rows h m i j Hi Hj).
  apply fill_column_leading.
  - rewrite length_fmap. by eapply lookup_lt_Some.
  - intros k Hk. rewrite list_lookup_fmap.
    destruct (lookup_lt_is_Some_2 (pv_index (pivot_of_rows rows)) k)
      as [h' Hk']; [apply lookup_lt_Some in Hi; lia|].
    rewrite Hk'. simpl. f_equal.
    apply eq_None_not_Some. intros Hsome.
    apply (Hnone h').
    + destruct (decide (k = i)) as [->|Hne]; [by simplify_eq|].
      assert (h' < h); [|lia].
      apply (sorted_lookup_lt (pv_index (pivot_of_rows rows)) k i);
        [apply sorted_distinct_increasing|done|done|lia].
    + by apply (has_price_rows _ _ rows).
Qed.

(** X14. In a month column, a cell below the last hour that has a price
    repeats the value shown at that hour. *)
Theorem trailing_gap_last_value w f s pc h0 h m :
  reachable load_master to_datetime w →
  result build w = Returned f →
  data0.2 = Some pc →
  s ∈ fig_data f →
  h ∈ surf_y s →
  h0 < h →
  has_price data0.1 (LStr pc) h0 m →
  (∀ h', h0 < h' → ¬ has_price data0.1 (LStr pc) h' m) →
  is_Some (surface_at s h0 m) ∧ surface_at s h m = surface_at s h0 m.
Proof.
  intros Hr Hres Hpc Hs Hh Hlt Hlast Hnone.
  destruct (built_figure_cases w f Hr Hres)
    as [[-> _]|(p & rows & Hp & _ & Hrows & ->)];
    [by apply elem_of_nil in Hs|].
  apply list_elem_of_singleton in Hs as ->.
  assert (p = pc) as -> by congruence.
  change (h ∈ pv_index (pivot_of_rows rows)) in Hh.
  apply (has_price_rows _ _ rows) in Hlast as [a Ha]; [|done].
  rewrite (surface_trace_known rows h0 m a Ha). split; [done|].
  assert (h0 ∈ pv_index (pivot_of_rows rows)) as Hh0
    by (apply pivot_index_elem; by exists m, a).
  assert (m ∈ pv_columns (pivot_of_rows rows)) as Hm
    by (apply pivot_columns_elem; by exists h0, a).
  apply list_elem_of_lookup_1 in Hh as [i Hi].
  apply list_elem_of_lookup_1 in Hh0 as [i0 Hi0].
  apply list_elem_of_lookup_1 in Hm as [j Hj].
  pose proof (sorted_distinct_increasing (agged rows).*1.*1) as Hsorted.
  change (sorted_distinct (agged rows).*1.*1)
    with (pv_index (pivot_of_rows rows)) in Hsorted.
  rewrite (surface_trace_cell rows h m i j Hi Hj).
  apply (fill_column_trailing _ i0).
  - by rewrite list_lookup_fmap, Hi0; simpl; rewrite Ha.
  - intros k Hk Hlen. rewrite length_fmap in Hlen.
    destruct (lookup_lt_is_Some_2 _ k Hlen) as [h' Hk'].
    rewrite list_lookup_fmap, Hk'. simpl. f_equal.
    apply eq_None_not_Some. intros Hsome.
    apply (Hnone h').
    + by apply (sorted_lookup_lt (pv_index (pivot_of_rows rows)) i0 k).
    + by apply (has_price_rows _ _ rows).
  - destruct (decide (i0 < i)%nat) as [|Hn]; [done|].
    assert (i ≤ i0)%nat as Hle by lia.
    destruct (decide (i = i0)) as [->|Hne]; [simplify_eq; lia|].
    assert (h < h0); [|lia].
    apply (sorted_lookup_lt (pv_index (pivot_of_rows rows)) i i0);
      [done..|lia].
  - rewrite length_fmap. by eapply lookup_lt_Some.
Qed.


(** X16. After a successful preparation the build returns the blank
    figure exactly when no record has a timestamp that parsed or the
    table has neither price column; in every other case the figure it
    returns holds a surface. *)
Theorem blank_without_timestamps_or_price w df cells f :
  reachable load_master to_datetime w →
  load_master 0%nat = LoadFrame df →
  resolve_datetime to_datetime df = Some cells →
  result build w = Returned f →
  f = blank_figure ↔
  Forall (fun c => isna c = true)
         (resize (length (records df)) VNaN cells) ∨
  choose_price_col (columns df) = None.
Proof.
  intros Hr Hld Hres Hrun.
  destruct (built_figure_cases w f Hr Hrun)
    as [[-> Hg]|(p & rows & Hp & He & _ & ->)];
    revert Hg || revert Hp He; unfold process_data;
    rewrite (prepared_result_frame to_datetime _ df Hld), Hres;
    cbn [fst snd].
  - intros [He|Hn]; split; try done; intros _; [left|by right].
    by apply prepared_no_records, prepared_empty.
  - intros Hp He. split; [done|].
    intros [Hall|Hn]; [|congruence].
    apply prepared_no_records, prepared_empty in Hall. congruence.
Qed.



End Grid.

(** * The further properties on sample processes *)

(** A process that has built its figure twice and asked for the data in
    between, with a loader whose second answer would differ. *)
Lemma reachable_three_calls :
  reachable changing_loader keep_timestamps
    (after (build_surface_figure changing_loader keep_timestamps)
       (after (get_surface_data changing_loader keep_timestamps)
          (after (build_surface_figure changing_loader keep_timestamps)
             fresh_process))).
Proof. apply reach_build, reach_get, reach_build, reach_fresh. Qed.

Lemma load_master_called_once_witness :
  let w := after (build_surface_figure changing_loader keep_timestamps)
             (after (get_surface_data changing_loader keep_timestamps)
                (after (build_surface_figure changing_loader keep_timestamps)
                   fresh_process)) in
  (fetches w ≤ 1)%nat ∧
  (fetches w = 0%nat ↔ data_cache w = None) ∧
  fetches (after (get_surface_data changing_loader keep_timestamps) w)
    = 1%nat ∧
  fetches (after (build_surface_figure changing_loader keep_timestamps) w)
    = 1%nat.
Proof.
  exact (load_master_called_once changing_loader keep_timestamps _
           reachable_three_calls).
Defined.

Lemma get_surface_data_first_answer_witness :
  changing_loader 1%nat = LoadFrame two_records ∧
  ∃ l,
    result (get_surface_data changing_loader keep_timestamps)
      (after (build_surface_figure changing_loader keep_timestamps)
         fresh_process)
    = Returned (l, Some "standardized_price") ∧
    heap (after (get_surface_data changing_loader keep_timestamps)
            (after (build_surface_figure changing_loader keep_timestamps)
               fresh_process)) !! l
    = Some (prepared three_records (kept three_records)).
Proof.
  split; [reflexivity|].
  exact (get_surface_data_first_answer changing_loader keep_timestamps _
           (reach_build _ _ _ (reach_fresh _ _))).
Defined.

Lemma build_surface_figure_first_answer_witness :
  let w := after (get_surface_data changing_loader keep_timestamps)
             fresh_process in
  result (build_surface_figure changing_loader keep_timestamps) w
  = outcome_of (figure_of (prepared three_records (kept three_records))
                          (Some "standardized_price")) ∧
  figure_cache w = None.
Proof.
  split; [|reflexivity].
  exact (proj1 (build_surface_figure_first_answer changing_loader
                  keep_timestamps _ (reach_get _ _ _ (reach_fresh _ _)))).
Defined.


Lemma loaded_frame_mutated_in_place_witness :
  ∃ pc cells,
    result (get_surface_data (always start_time) keep_timestamps)
           fresh_process = Returned (1%nat, pc) ∧
    cells = [VTime (on 3 14 I I)] ∧
    heap (after (get_surface_data (always start_time) keep_timestamps)
            fresh_process) !! 0%nat
    = Some (setitem start_time datetime cells) ∧
    heap (after (get_surface_data (always start_time) keep_timestamps)
            fresh_process) !! 1%nat
    = Some (prepared start_time cells) ∧
    datetime ∉ columns start_time.
Proof.
  destruct (loaded_frame_mutated_in_place (always start_time)
              keep_timestamps fresh_process start_time eq_refl eq_refl)
    as (pc & Hres & Hheap).
  change (resolve_datetime keep_timestamps start_time)
    with (Some [VTime (on 3 14 I I)]) in Hheap.
  destruct Hheap as (H0 & H1 & _).
  exists pc, [VTime (on 3 14 I I)].
  split; [exact Hres|]. split; [reflexivity|].
  split; [exact H0|]. split; [exact H1|].
  compute_done.
Defined.

Lemma layout_shows_built_figure_witness :
  let page := layout (always two_records) keep_timestamps in
  let build := build_surface_figure (always two_records) keep_timestamps in
  after page fresh_process = after build fresh_process ∧
  match result build fresh_process with
  | Returned f =>
      ∃ tree, result page fresh_process = Returned tree ∧
              figures tree = [f] ∧ graph_ids tree = ["price-surface"]
  | Raised => result page fresh_process = Raised
  end ∧
  ∀ n, result page (Nat.iter n (after page) (after page fresh_process))
       = result page fresh_process.
Proof.
  exact (layout_shows_built_figure (always two_records) keep_timestamps
           fresh_process wf_fresh_process).
Defined.

(** [three_records] has four rows, one of them without a timestamp. *)
Lemma prepared_frame_rows_witness :
  ∃ l pc d,
    result (get_surface_data (always three_records) keep_timestamps)
           fresh_process = Returned (l, pc) ∧
    heap (after (get_surface_data (always three_records) keep_timestamps)
            fresh_process) !! l = Some d ∧
    columns d = columns three_records ∧
    Forall (fun r => ∃ t, cell datetime r = VTime t) (records d) ∧
    (delete datetime <$> records d)
      `sublist_of` (delete datetime <$> records three_records) ∧
    length (records three_records) = 4%nat ∧
    length (records d) = 3%nat.
Proof.
  destruct (prepared_frame_rows (always three_records) keep_timestamps
              fresh_process three_records (kept three_records)
              eq_refl eq_refl eq_refl)
    as (l & pc & d & Hres & Hd & Hcols & Hts & Hsub & Hlen).
  exists l, pc, d. repeat split; try done.
Defined.


Lemma figure_blank_or_single_surface_witness :
  ∃ f,
    result (build_surface_figure (always three_records) keep_timestamps)
           fresh_process = Returned f ∧
    f ≠ blank_figure ∧
    ∃ s, fig_data f = [s] ∧ surf_colorscale s = "Electric" ∧
         title_text (fig_layout f) = Some "Hourly Price Terrain (Hologram)".
Proof.
  destruct (result (build_surface_figure (always three_records)
                      keep_timestamps) fresh_process) as [f|] eqn:Hres;
    [|vm_compute in Hres; discriminate Hres].
  exists f. split; [done|].
  destruct (figure_blank_or_single_surface (always three_records)
              keep_timestamps fresh_process f (reach_fresh _ _) Hres)
    as [(_ & _ & [He|Hp])|(Hne & _ & _ & Hs)].
  - vm_compute in He. discriminate He.
  - vm_compute in Hp. discriminate Hp.
  - by split.
Defined.


(** The prices of [three_records] are 10, 20, 99 and 7. *)
Lemma surface_values_within_prices_witness :
  ∃ f,
    result (build_surface_figure (always three_records) keep_timestamps)
           fresh_process = Returned f ∧
    ∀ s row v, s ∈ fig_data f → row ∈ surf_z s → v ∈ row →
               v = 0%Q ∨ (7 <= v <= 99)%Q.
Proof.
  destruct (result (build_surface_figure (always three_records)
                      keep_timestamps) fresh_process) as [f|] eqn:Hres;
    [|vm_compute in Hres; discriminate Hres].
  exists f. split; [done|].
  apply (surface_values_within_prices (always three_records)
           keep_timestamps fresh_process three_records 7 99 f
           (reach_fresh _ _) eq_refl); [|done].
  intros pc Hpc. vm_compute in Hpc. injection Hpc as <-.
  intros r q Hr Hq. unfold three_records in Hr. simpl in Hr.
  repeat (apply elem_of_cons in Hr as [->|Hr]);
    [..|by apply elem_of_nil in Hr];
    vm_compute in Hq; injection Hq as <-; split; lra.
Defined.

(** In [three_records] month 2 has a price at hour 1 only: the grid shows
    0 at hour 0 and repeats the value of hour 1 at hour 2. *)
Lemma three_records_rows :
  mapM (observe (LStr "standardized_price"))
       (records (process_data (always three_records) keep_timestamps).1)
  = Some [((0, 1), Some 10%Q); ((2, 1), Some 20%Q); ((1, 2), Some 7%Q)].
Proof. by vm_compute. Qed.

Lemma three_records_priced h m :
  has_price (process_data (always three_records) keep_timestamps).1
            (LStr "standardized_price") h m ↔
  (h, m) = (0, 1) ∨ (h, m) = (2, 1) ∨ (h, m) = (1, 2).
Proof.
  rewrite (has_price_rows _ _ _ h m three_records_rows), agged_map_is_Some.
  split.
  - intros [q Hq].
    repeat (apply elem_of_cons in Hq as [Heq|Hq]);
      [..|by apply elem_of_nil in Hq]; injection Heq as -> -> _; auto.
  - intros [[= -> ->]|[[= -> ->]|[= -> ->]]]; eexists.
    + apply list_elem_of_here.
    + apply list_elem_of_further, list_elem_of_here.
    + apply list_elem_of_further, list_elem_of_further, list_elem_of_here.
Qed.

Lemma leading_gap_zero_witness :
  ∃ f s,
    result (build_surface_figure (always three_records) keep_timestamps)
           fresh_process = Returned f ∧
    fig_data f = [s] ∧
    surface_at s 0 2 = Some 0%Q.
Proof.
  destruct (result (build_surface_figure (always three_records)
                      keep_timestamps) fresh_process) as [f|] eqn:Hres;
    [|vm_compute in Hres; discriminate Hres].
  assert (∃ s, fig_data f = [s] ∧ surf_y s = [0; 1; 2] ∧ surf_x s = [1; 2])
    as (s & Hs & Hy & Hx).
  { vm_compute in Hres. injection Hres as <-. by eexists. }
  exists f, s. split; [done|]. split; [done|].
  apply (leading_gap_zero (always three_records) keep_timestamps
           fresh_process f s "standardized_price" 0 2
           (reach_fresh _ _) Hres eq_refl).
  - rewrite Hs. left.
  - rewrite Hy. left.
  - rewrite Hx. right. left.
  - intros h' Hle [H|[H|H]]%three_records_priced; injection H; intros; lia.
Defined.

Lemma trailing_gap_last_value_witness :
  ∃ f s,
    result (build_surface_figure (always three_records) keep_timestamps)
           fresh_process = Returned f ∧
    fig_data f = [s] ∧
    is_Some (surface_at s 1 2) ∧
    surface_at s 2 2 = surface_at s 1 2.
Proof.
  destruct (result (build_surface_figure (always three_records)
                      keep_timestamps) fresh_process) as [f|] eqn:Hres;
    [|vm_compute in Hres; discriminate Hres].
  assert (∃ s, fig_data f = [s] ∧ surf_y s = [0; 1; 2])
    as (s & Hs & Hy).
  { vm_compute in Hres. injection Hres as <-. by eexists. }
  exists f, s. split; [done|]. split; [done|].
  apply (trailing_gap_last_value (always three_records) keep_timestamps
           fresh_process f s "standardized_price" 1 2 2
           (reach_fresh _ _) Hres eq_refl).
  - rewrite Hs. left.
  - rewrite Hy. right. right. left.
  - lia.
  - apply three_records_priced. auto.
  - intros h' Hlt [H|[H|H]]%three_records_priced; injection H; intros; lia.
Defined.


(** [no_timestamp] has a price column and no timestamp that parses. *)
Lemma blank_without_timestamps_or_price_witness :
  ∃ f,
    result (build_surface_figure (always no_timestamp) keep_timestamps)
           fresh_process = Returned f ∧
    choose_price_col (columns no_timestamp) = Some "charge" ∧
    (f = blank_figure ↔
     Forall (fun c => isna c = true)
            (resize (length (records no_timestamp)) VNaN [VNaN]) ∨
     choose_price_col (columns no_timestamp) = None).
Proof.
  destruct (result (build_surface_figure (always no_timestamp)
                      keep_timestamps) fresh_process) as [f|] eqn:Hres;
    [|vm_compute in Hres; discriminate Hres].
  exists f. split; [done|]. split; [reflexivity|].
  exact (blank_without_timestamps_or_price (always no_timestamp)
           keep_timestamps fresh_process no_timestamp [VNaN] f
           (reach_fresh _ _) eq_refl eq_refl Hres).
Defined.


